(** * Payment-driven lifecycle of the classifieds marketplace (app/models.py)

    Shallow embedding of the data model of [app/models.py] together with the
    lifecycle engine that operates on it (payment state machine, quota ledger,
    reconciliation of gateway callbacks, expiration sweep).

    Conventions:
    - a [datetime] is a [Z] count of seconds, a [date] a [Z] count of days;
    - a [Decimal] amount is a [Z] count of cents;
    - each SQLModel class is a record inside a module of the same name, each
      [str]-valued [Enum] an inductive type inside a module of the same name;
    - descriptive columns that no lifecycle rule reads (titles, images, ...)
      are left out of the records. *)

From Stdlib Require Import ZArith List String Ascii Bool Lia.
Import ListNotations.
Open Scope string_scope.
Open Scope Z_scope.

(* ------------------------------------------------------------------ *)
(** ** Enums (models.py, lines 21-46) *)

Module AdStatus.
Inductive t := DRAFT | ACTIVE | UNDER_REVIEW | REJECTED | EXPIRED | DELETED.
End AdStatus.

Module PaymentStatus.
Inductive t := PENDING | COMPLETED | FAILED | CANCELLED | REFUNDED.
Scheme Equality for t.
End PaymentStatus.

Module MembershipStatus.
Inductive t := ACTIVE | INACTIVE | EXPIRED.
Scheme Equality for t.
End MembershipStatus.

Module PaymentType.
Inductive t := MEMBERSHIP | AD_BOOST.
End PaymentType.

(* ------------------------------------------------------------------ *)
(** ** Persistent models *)

(** [class MembershipPackage] (lines 87-105). *)
Module MembershipPackage.
Record t := {
    id : Z;
    duration_days : Z;
    max_ads : Z;
    boost_credits : Z;       (* default 0 *)
    is_active : bool         (* default True *)
  }.
End MembershipPackage.

(** [class UserMembership] (lines 108-125). *)
Module UserMembership.
Record t := {
    id : Z;
    user_id : Z;
    package_id : Z;
    status : MembershipStatus.t;        (* default ACTIVE *)
    start_date : Z;                     (* default date.today() *)
    end_date : Z;
    remaining_boost_credits : Z;        (* default 0 *)
    remaining_ads : Z;                  (* default 0 *)
    auto_renew : bool;                  (* default False *)
    created_at : Z;
    updated_at : Z
  }.
End UserMembership.

(** [class Ad] (lines 128-156), lifecycle columns. *)
Module Ad.
Record t := {
    id : Z;
    user_id : Z;
    category_id : Z;
    status : AdStatus.t;                (* default DRAFT *)
    is_boosted : bool;                  (* default False *)
    boost_expires_at : option Z;        (* default None *)
    expires_at : option Z;              (* default None *)
    updated_at : Z
  }.
End Ad.

(** [class Payment] (lines 175-198).  [payment_details] is the opaque
    gateway metadata blob, kept as a list of integer-valued entries. *)
Module Payment.
Record t := {
    id : Z;
    user_id : Z;
    membership_package_id : option Z;   (* default None *)
    boosted_ad_id : option Z;           (* default None *)
    payment_type : PaymentType.t;
    amount : Z;
    currency : string;                  (* default "IDR" *)
    status : PaymentStatus.t;           (* default PENDING *)
    midtrans_order_id : string;         (* unique *)
    midtrans_transaction_id : option string;  (* default None *)
    payment_method : option string;     (* default None *)
    payment_details : list (string * Z);(* default {} *)
    paid_at : option Z;                 (* default None *)
    expires_at : option Z;              (* default None *)
    created_at : Z;
    updated_at : Z
  }.
End Payment.

(* ------------------------------------------------------------------ *)
(** ** Request schemas (table=False, validated by pydantic) *)

(** [class PaymentCreate] (lines 303-307). *)
Module PaymentCreate.
Record t := {
    payment_type : PaymentType.t;
    membership_package_id : option Z;   (* default None *)
    boosted_ad_id : option Z;           (* default None *)
    amount : Z
  }.
End PaymentCreate.

(** [class AdBoost] (lines 298-300). *)
Module AdBoost.
Record t := {
    ad_id : Z;
    duration_days : Z                   (* Field(ge=1, le=30) *)
  }.
End AdBoost.

(** [class PaymentCallback] (lines 310-316). *)
Module PaymentCallback.
Record t := {
    order_id : string;
    transaction_status : string;
    transaction_id : option string;     (* default None *)
    payment_type : option string;       (* default None *)
    gross_amount : option string;       (* default None *)
    signature_key : option string       (* default None *)
  }.
End PaymentCallback.

(* ------------------------------------------------------------------ *)
(** ** Validation of request bodies

    A request body is a JSON object, an association list from field names to
    JSON scalars.  Extra keys are ignored (pydantic's default).  A [str]
    field accepts a JSON string only; an [int] field accepts a JSON integer
    or a string of decimal digits with an optional sign (lax mode); an
    [Optional[...]] field with a default accepts a missing key or [null] as
    [None]. *)

Inductive JSON := JNull | JInt (z : Z) | JStr (s : string).

Definition Obj := list (string * JSON).

Fixpoint get_first (k : string) (o : Obj) : option JSON :=
  match o with
  | [] => None
  | (k', v) :: o' => if String.eqb k k' then Some v else get_first k o'
  end.

(** A JSON object with a repeated key keeps its last value ([json.loads]). *)
Definition get (k : string) (o : Obj) : option JSON := get_first k (rev o).

Fixpoint digits_value (acc : Z) (s : string) : option Z :=
  match s with
  | EmptyString => Some acc
  | String c s' =>
      let n := Z.of_nat (nat_of_ascii c) - 48 in
      if (0 <=? n) && (n <=? 9) then digits_value (10 * acc + n) s' else None
  end.

(** The integer strings an [int] field accepts in pydantic's lax mode, in
    their plain form: an optional sign and decimal digits.  Lax mode also
    accepts surrounding whitespace, [_] between digits and a zero fraction
    ([" 7 "], ["1_000"], ["7.0"]); this function rejects those, so it only
    decides the strings it parses. *)
Definition parse_int (s : string) : option Z :=
  match s with
  | EmptyString => None
  | String c s' =>
      if Ascii.eqb c "-"%char then
        match s' with EmptyString => None | _ => option_map Z.opp (digits_value 0 s') end
      else if Ascii.eqb c "+"%char then
        match s' with EmptyString => None | _ => digits_value 0 s' end
      else digits_value 0 s
  end.

(** Required [str] field. *)
Definition req_str (k : string) (o : Obj) : option string :=
  match get k o with Some (JStr s) => Some s | _ => None end.

(** [Optional[str] = Field(default=None)]: the outer [option] is the
    validation outcome, the inner one the field value. *)
Definition opt_str (k : string) (o : Obj) : option (option string) :=
  match get k o with
  | None | Some JNull => Some None
  | Some (JStr s) => Some (Some s)
  | Some (JInt _) => None
  end.

(** The value an [Optional[str]] field takes when the body validates. *)
Definition opt_str_value (k : string) (o : Obj) (x : option string) : Prop :=
  match x with
  | None => get k o = None \/ get k o = Some JNull
  | Some v => get k o = Some (JStr v)
  end.

(** Required [int] field. *)
Definition req_int (k : string) (o : Obj) : option Z :=
  match get k o with
  | Some (JInt z) => Some z
  | Some (JStr s) => parse_int s
  | _ => None
  end.

Definition validate_PaymentCallback (o : Obj) : option PaymentCallback.t :=
  match req_str "order_id" o, req_str "transaction_status" o,
        opt_str "transaction_id" o, opt_str "payment_type" o,
        opt_str "gross_amount" o, opt_str "signature_key" o with
  | Some oid, Some ts, Some tid, Some pt, Some ga, Some sk =>
      Some {| PaymentCallback.order_id := oid;
              PaymentCallback.transaction_status := ts;
              PaymentCallback.transaction_id := tid;
              PaymentCallback.payment_type := pt;
              PaymentCallback.gross_amount := ga;
              PaymentCallback.signature_key := sk |}
  | _, _, _, _, _, _ => None
  end.

(** [duration_days: int = Field(ge=1, le=30)]. *)
Definition validate_AdBoost (o : Obj) : option AdBoost.t :=
  match req_int "ad_id" o, req_int "duration_days" o with
  | Some a, Some d =>
      if (1 <=? d) && (d <=? 30)
      then Some {| AdBoost.ad_id := a; AdBoost.duration_days := d |}
      else None
  | _, _ => None
  end.

(* ------------------------------------------------------------------ *)
(** ** Ledger store and the engine's error-state monad *)

Inductive Error :=
| InvalidTransition
| InvalidSignature
| UnknownOrder
| UnmappedStatus
| ConflictingStatus
| QuotaExhausted
| PartialGrantFailure
| UnknownMembership
| DuplicateOrderId.

(** The rows of the store the lifecycle engine reads and writes.
    [next_payment_id] and [next_membership_id] are the primary-key
    sequences; [audit_log] receives the refund reports of section 7. *)
Record Store := {
  payments : list Payment.t;
  memberships : list UserMembership.t;
  ads : list Ad.t;
  packages : list MembershipPackage.t;
  audit_log : list string;
  next_payment_id : Z;
  next_membership_id : Z
}.

(** A computation inside one store transaction: it fails with an [Error]
    (and the caller keeps the state it started from, i.e. the transaction
    rolls back), or returns a value and the updated store. *)
Definition M (A : Type) : Type := Store -> Error + (A * Store).

Definition ret {A} (a : A) : M A := fun s => inr (a, s).
Definition throw {A} (e : Error) : M A := fun _ => inl e.
Definition bind {A B} (m : M A) (k : A -> M B) : M B :=
  fun s => match m s with inl e => inl e | inr (a, s') => k a s' end.
Definition get_store : M Store := fun s => inr (s, s).
Definition put_store (s : Store) : M unit := fun _ => inr (tt, s).
Definition of_option {A} (e : Error) (o : option A) : M A :=
  match o with Some a => ret a | None => throw e end.

Notation "x <- m ;; k" := (bind m (fun x => k))
  (at level 61, m at next level, right associativity).
Notation "m ;;; k" := (bind m (fun _ => k))
  (at level 61, right associativity).

Definition set_payments (ps : list Payment.t) (s : Store) : Store :=
  {| payments := ps; memberships := memberships s; ads := ads s;
     packages := packages s; audit_log := audit_log s;
     next_payment_id := next_payment_id s;
     next_membership_id := next_membership_id s |}.

Definition set_memberships (ms : list UserMembership.t) (s : Store) : Store :=
  {| payments := payments s; memberships := ms; ads := ads s;
     packages := packages s; audit_log := audit_log s;
     next_payment_id := next_payment_id s;
     next_membership_id := next_membership_id s |}.

Definition set_ads (l : list Ad.t) (s : Store) : Store :=
  {| payments := payments s; memberships := memberships s; ads := l;
     packages := packages s; audit_log := audit_log s;
     next_payment_id := next_payment_id s;
     next_membership_id := next_membership_id s |}.

(** An update of the row a lookup found: the first row satisfying the
    lookup's predicate is replaced. *)
Fixpoint replace_first {A} (f : A -> bool) (x : A) (l : list A) : list A :=
  match l with
  | [] => []
  | y :: l' => if f y then x :: l' else y :: replace_first f x l'
  end.

Definition seconds_per_day : Z := 86400.

(** [date.today()] at instant [now]. *)
Definition today (now : Z) : Z := now / seconds_per_day.

(* ------------------------------------------------------------------ *)
(** ** Payment state machine (spec 4.1)

    Modelled from the spec: the repository's models carry the [status]
    column only; the transition table, the event and the side effects are
    those of section 4.1 of the spec. *)

Definition allowed (from to : PaymentStatus.t) : bool :=
  match from, to with
  | PaymentStatus.PENDING,
      (PaymentStatus.COMPLETED | PaymentStatus.FAILED | PaymentStatus.CANCELLED) => true
  | PaymentStatus.COMPLETED, PaymentStatus.REFUNDED => true
  | _, _ => false
  end.

(** An event: a target status plus the optional transaction id and paid-at
    instant it carries. *)
Record PaymentEvent := {
  ev_order_id : string;
  ev_target : PaymentStatus.t;
  ev_transaction_id : option string;
  ev_paid_at : option Z
}.

Inductive SideEffect :=
| GrantMembership (user : Z) (package : option Z)
| ExtendBoost (ad : option Z) (days : option Z)
| RevokeGrantedBenefit (order_id : string).

Fixpoint lookup_detail (k : string) (d : list (string * Z)) : option Z :=
  match d with
  | [] => None
  | (k', v) :: d' => if String.eqb k k' then Some v else lookup_detail k d'
  end.

Definition effects_of (p : Payment.t) (target : PaymentStatus.t) : list SideEffect :=
  match Payment.status p, target with
  | PaymentStatus.PENDING, PaymentStatus.COMPLETED =>
      match Payment.payment_type p with
      | PaymentType.MEMBERSHIP =>
          [GrantMembership (Payment.user_id p) (Payment.membership_package_id p)]
      | PaymentType.AD_BOOST =>
          [ExtendBoost (Payment.boosted_ad_id p)
                       (lookup_detail "duration_days" (Payment.payment_details p))]
      end
  | PaymentStatus.COMPLETED, PaymentStatus.REFUNDED =>
      [RevokeGrantedBenefit (Payment.midtrans_order_id p)]
  | _, _ => []
  end.

(** The payment after the event: the target status, the event's transaction
    id if it carries one, and [paid_at] recorded when the payment completes
    (the event's instant, or [now]).  A refund clears [paid_at]: section 3
    requires [status == completed] <=> [paid_at] set of every payment, and
    the refund is the only edge leaving [completed]. *)
Definition apply_event (now : Z) (p : Payment.t) (ev : PaymentEvent) : Payment.t :=
  {| Payment.id := Payment.id p;
     Payment.user_id := Payment.user_id p;
     Payment.membership_package_id := Payment.membership_package_id p;
     Payment.boosted_ad_id := Payment.boosted_ad_id p;
     Payment.payment_type := Payment.payment_type p;
     Payment.amount := Payment.amount p;
     Payment.currency := Payment.currency p;
     Payment.status := ev_target ev;
     Payment.midtrans_order_id := Payment.midtrans_order_id p;
     Payment.midtrans_transaction_id :=
       match ev_transaction_id ev with
       | Some t => Some t
       | None => Payment.midtrans_transaction_id p
       end;
     Payment.payment_method := Payment.payment_method p;
     Payment.payment_details := Payment.payment_details p;
     Payment.paid_at :=
       match ev_target ev with
       | PaymentStatus.COMPLETED =>
           Some (match ev_paid_at ev with Some t => t | None => now end)
       | PaymentStatus.REFUNDED => None
       | _ => Payment.paid_at p
       end;
     Payment.expires_at := Payment.expires_at p;
     Payment.created_at := Payment.created_at p;
     Payment.updated_at := now |}.

(** [transition(payment, event) -> (newState, sideEffects)]. *)
Definition transition (now : Z) (p : Payment.t) (ev : PaymentEvent)
  : Error + (Payment.t * list SideEffect) :=
  if negb (String.eqb (ev_order_id ev) (Payment.midtrans_order_id p))
  then inl InvalidTransition
  else if allowed (Payment.status p) (ev_target ev)
  then inr (apply_event now p ev, effects_of p (ev_target ev))
  else inl InvalidTransition.

(* ------------------------------------------------------------------ *)
(** ** Quota ledger (spec 4.2)

    Modelled from the spec: GrantMembership, ConsumeAdQuota,
    ConsumeBoostCredit and ExtendBoost of section 4.2, over the columns of
    [UserMembership] and [Ad]. *)

Definition is_active (m : UserMembership.t) : bool :=
  MembershipStatus.t_beq (UserMembership.status m) MembershipStatus.ACTIVE.

Definition with_membership_status (now : Z) (st : MembershipStatus.t)
  (m : UserMembership.t) : UserMembership.t :=
  {| UserMembership.id := UserMembership.id m;
     UserMembership.user_id := UserMembership.user_id m;
     UserMembership.package_id := UserMembership.package_id m;
     UserMembership.status := st;
     UserMembership.start_date := UserMembership.start_date m;
     UserMembership.end_date := UserMembership.end_date m;
     UserMembership.remaining_boost_credits := UserMembership.remaining_boost_credits m;
     UserMembership.remaining_ads := UserMembership.remaining_ads m;
     UserMembership.auto_renew := UserMembership.auto_renew m;
     UserMembership.created_at := UserMembership.created_at m;
     UserMembership.updated_at := now |}.

(** An existing active membership of [user] is forced to [inactive]. *)
Definition supersede (now user : Z) (m : UserMembership.t) : UserMembership.t :=
  if (UserMembership.user_id m =? user) && is_active m
  then with_membership_status now MembershipStatus.INACTIVE m
  else m.

Definition new_membership (mid now user : Z) (pk : MembershipPackage.t)
  : UserMembership.t :=
  {| UserMembership.id := mid;
     UserMembership.user_id := user;
     UserMembership.package_id := MembershipPackage.id pk;
     UserMembership.status := MembershipStatus.ACTIVE;
     UserMembership.start_date := today now;
     UserMembership.end_date := today now + MembershipPackage.duration_days pk;
     UserMembership.remaining_boost_credits := MembershipPackage.boost_credits pk;
     UserMembership.remaining_ads := MembershipPackage.max_ads pk;
     UserMembership.auto_renew := false;
     UserMembership.created_at := now;
     UserMembership.updated_at := now |}.

Definition find_package (k : Z) (s : Store) : option MembershipPackage.t :=
  find (fun pk => MembershipPackage.id pk =? k) (packages s).

Definition grant_membership (now user : Z) (package : option Z) : M unit :=
  s <- get_store ;;
  k <- of_option PartialGrantFailure package ;;
  pk <- of_option PartialGrantFailure (find_package k s) ;;
  let mid := next_membership_id s in
  put_store
    {| payments := payments s;
       memberships := map (supersede now user) (memberships s)
                      ++ [new_membership mid now user pk];
       ads := ads s; packages := packages s; audit_log := audit_log s;
       next_payment_id := next_payment_id s;
       next_membership_id := mid + 1 |}.


Definition membership_is (k : Z) (m : UserMembership.t) : bool :=
  UserMembership.id m =? k.

Definition find_membership (k : Z) (s : Store) : option UserMembership.t :=
  find (membership_is k) (memberships s).

Definition decrement_ads (now : Z) (m : UserMembership.t) : UserMembership.t :=
  {| UserMembership.id := UserMembership.id m;
     UserMembership.user_id := UserMembership.user_id m;
     UserMembership.package_id := UserMembership.package_id m;
     UserMembership.status := UserMembership.status m;
     UserMembership.start_date := UserMembership.start_date m;
     UserMembership.end_date := UserMembership.end_date m;
     UserMembership.remaining_boost_credits := UserMembership.remaining_boost_credits m;
     UserMembership.remaining_ads := UserMembership.remaining_ads m - 1;
     UserMembership.auto_renew := UserMembership.auto_renew m;
     UserMembership.created_at := UserMembership.created_at m;
     UserMembership.updated_at := now |}.

Definition decrement_boost_credits (now : Z) (m : UserMembership.t) : UserMembership.t :=
  {| UserMembership.id := UserMembership.id m;
     UserMembership.user_id := UserMembership.user_id m;
     UserMembership.package_id := UserMembership.package_id m;
     UserMembership.status := UserMembership.status m;
     UserMembership.start_date := UserMembership.start_date m;
     UserMembership.end_date := UserMembership.end_date m;
     UserMembership.remaining_boost_credits := UserMembership.remaining_boost_credits m - 1;
     UserMembership.remaining_ads := UserMembership.remaining_ads m;
     UserMembership.auto_renew := UserMembership.auto_renew m;
     UserMembership.created_at := UserMembership.created_at m;
     UserMembership.updated_at := now |}.

(** [ConsumeAdQuota(membership)]: [QuotaExhausted] when [remaining_ads == 0];
    a membership that is not active is not honoured by quota checks. *)
Definition consume_ad_quota (now k : Z) : M unit :=
  s <- get_store ;;
  m <- of_option UnknownMembership (find_membership k s) ;;
  if negb (is_active m) || (UserMembership.remaining_ads m =? 0)
  then throw QuotaExhausted
  else put_store (set_memberships
                    (replace_first (membership_is k) (decrement_ads now m) (memberships s)) s).

(** [ConsumeBoostCredit(membership)]: same pattern over
    [remaining_boost_credits]. *)
Definition consume_boost_credit (now k : Z) : M unit :=
  s <- get_store ;;
  m <- of_option UnknownMembership (find_membership k s) ;;
  if negb (is_active m) || (UserMembership.remaining_boost_credits m =? 0)
  then throw QuotaExhausted
  else put_store (set_memberships
                    (replace_first (membership_is k) (decrement_boost_credits now m)
                       (memberships s)) s).

(** [ExtendBoost(ad, days)]:
    [boost_expires_at = max(now, current boost_expires_at) + days]. *)
Definition extend_boost (now days : Z) (a : Ad.t) : Ad.t :=
  {| Ad.id := Ad.id a;
     Ad.user_id := Ad.user_id a;
     Ad.category_id := Ad.category_id a;
     Ad.status := Ad.status a;
     Ad.is_boosted := true;
     Ad.boost_expires_at :=
       Some (Z.max now (match Ad.boost_expires_at a with Some e => e | None => now end)
             + days * seconds_per_day);
     Ad.expires_at := Ad.expires_at a;
     Ad.updated_at := now |}.

Definition update_ad (k : Z) (f : Ad.t -> Ad.t) (l : list Ad.t) : list Ad.t :=
  map (fun a => if Ad.id a =? k then f a else a) l.

Definition extend_boost_m (now : Z) (ad days : option Z) : M unit :=
  s <- get_store ;;
  k <- of_option PartialGrantFailure ad ;;
  d <- of_option PartialGrantFailure days ;;
  if existsb (fun a => Ad.id a =? k) (ads s)
  then put_store (set_ads (update_ad k (extend_boost now d) (ads s)) s)
  else throw PartialGrantFailure.

(** [RevokeGrantedBenefit]: reported through the audit log, not reversed
    (section 7). *)
Definition revoke_granted_benefit (order_id : string) : M unit :=
  s <- get_store ;;
  put_store
    {| payments := payments s; memberships := memberships s; ads := ads s;
       packages := packages s;
       audit_log := audit_log s ++ ["refund " ++ order_id];
       next_payment_id := next_payment_id s;
       next_membership_id := next_membership_id s |}.

Definition apply_effect (now : Z) (e : SideEffect) : M unit :=
  match e with
  | GrantMembership user package => grant_membership now user package
  | ExtendBoost ad days => extend_boost_m now ad days
  | RevokeGrantedBenefit oid => revoke_granted_benefit oid
  end.

Fixpoint apply_effects (now : Z) (es : list SideEffect) : M unit :=
  match es with
  | [] => ret tt
  | e :: es' => apply_effect now e ;;; apply_effects now es'
  end.

(* ------------------------------------------------------------------ *)
(** ** Reconciliation engine (spec 4.3)

    Modelled from the spec: [reconcile(callbackEvent)] of section 4.3.  The
    callback's fields are those of [PaymentCallback]; the signature check is
    delegated to an external verifier, a parameter of the engine. *)

Inductive ReconciliationResult := Applied | AlreadyApplied.

(** Fixed lookup table from the gateway's [transaction_status] vocabulary. *)
Definition map_status (ts : string) : option PaymentStatus.t :=
  if String.eqb ts "settlement" || String.eqb ts "capture" then Some PaymentStatus.COMPLETED
  else if String.eqb ts "deny" || String.eqb ts "expire" then Some PaymentStatus.FAILED
  else if String.eqb ts "cancel" then Some PaymentStatus.CANCELLED
  else if String.eqb ts "refund" then Some PaymentStatus.REFUNDED
  else None.

Definition order_is (oid : string) (p : Payment.t) : bool :=
  String.eqb (Payment.midtrans_order_id p) oid.

Definition find_payment (oid : string) (s : Store) : option Payment.t :=
  find (order_is oid) (payments s).

Definition is_pending (st : PaymentStatus.t) : bool :=
  PaymentStatus.t_beq st PaymentStatus.PENDING.

Section Engine.

Variable verify : PaymentCallback.t -> bool.

Definition reconcile (now : Z) (cb : PaymentCallback.t) : M ReconciliationResult :=
  let oid := PaymentCallback.order_id cb in
  if negb (verify cb) then throw InvalidSignature else
  s <- get_store ;;
  p <- of_option UnknownOrder (find_payment oid s) ;;
  target <- of_option UnmappedStatus (map_status (PaymentCallback.transaction_status cb)) ;;
  if PaymentStatus.t_beq (Payment.status p) target then ret AlreadyApplied
  else if allowed (Payment.status p) target then
    let ev := {| ev_order_id := oid; ev_target := target;
                 ev_transaction_id := PaymentCallback.transaction_id cb;
                 ev_paid_at := None |} in
    match transition now p ev with
    | inl e => throw e
    | inr (p', effs) =>
        put_store (set_payments (replace_first (order_is oid) p' (payments s)) s) ;;;
        apply_effects now effs ;;;
        ret Applied
    end
  else if is_pending (Payment.status p) then throw InvalidTransition
  else throw ConflictingStatus.

End Engine.

(* ------------------------------------------------------------------ *)
(** ** Expiration sweeper (spec 4.4)

    Modelled from the spec: [sweep(now)] of section 4.4. *)

Definition fail_payment (now : Z) (p : Payment.t) : Payment.t :=
  {| Payment.id := Payment.id p;
     Payment.user_id := Payment.user_id p;
     Payment.membership_package_id := Payment.membership_package_id p;
     Payment.boosted_ad_id := Payment.boosted_ad_id p;
     Payment.payment_type := Payment.payment_type p;
     Payment.amount := Payment.amount p;
     Payment.currency := Payment.currency p;
     Payment.status := PaymentStatus.FAILED;
     Payment.midtrans_order_id := Payment.midtrans_order_id p;
     Payment.midtrans_transaction_id := Payment.midtrans_transaction_id p;
     Payment.payment_method := Payment.payment_method p;
     Payment.payment_details := Payment.payment_details p;
     Payment.paid_at := Payment.paid_at p;
     Payment.expires_at := Payment.expires_at p;
     Payment.created_at := Payment.created_at p;
     Payment.updated_at := now |}.

Definition sweep_payment (now : Z) (p : Payment.t) : Payment.t :=
  match Payment.expires_at p with
  | Some e => if is_pending (Payment.status p) && (e <? now) then fail_payment now p else p
  | None => p
  end.

Definition sweep_membership (now : Z) (m : UserMembership.t) : UserMembership.t :=
  if is_active m && (UserMembership.end_date m <? today now)
  then with_membership_status now MembershipStatus.EXPIRED m
  else m.

Definition sweep_ad (now : Z) (a : Ad.t) : Ad.t :=
  let boosted :=
    match Ad.boost_expires_at a with
    | Some e => if e <? now then false else Ad.is_boosted a
    | None => Ad.is_boosted a
    end in
  let st :=
    match Ad.expires_at a with
    | Some e => if e <? now then AdStatus.EXPIRED else Ad.status a
    | None => Ad.status a
    end in
  {| Ad.id := Ad.id a; Ad.user_id := Ad.user_id a; Ad.category_id := Ad.category_id a;
     Ad.status := st; Ad.is_boosted := boosted;
     Ad.boost_expires_at := Ad.boost_expires_at a;
     Ad.expires_at := Ad.expires_at a; Ad.updated_at := Ad.updated_at a |}.

Definition sweep (now : Z) (s : Store) : Store :=
  {| payments := map (sweep_payment now) (payments s);
     memberships := map (sweep_membership now) (memberships s);
     ads := map (sweep_ad now) (ads s);
     packages := packages s; audit_log := audit_log s;
     next_payment_id := next_payment_id s;
     next_membership_id := next_membership_id s |}.

(* ------------------------------------------------------------------ *)
(** ** Payment creation

    Modelled from the spec: the checkout flow (out of scope, section 3)
    creates the Payment in [pending] from a [PaymentCreate] request; the row
    is the [Payment] constructor with the model's defaults, and the
    [unique=True] constraint on [midtrans_order_id] rejects a second row with
    the same order id. *)

Definition new_payment (pid now user : Z) (req : PaymentCreate.t) (oid : string)
  (details : list (string * Z)) (expires_at : option Z) : Payment.t :=
  {| Payment.id := pid;
     Payment.user_id := user;
     Payment.membership_package_id := PaymentCreate.membership_package_id req;
     Payment.boosted_ad_id := PaymentCreate.boosted_ad_id req;
     Payment.payment_type := PaymentCreate.payment_type req;
     Payment.amount := PaymentCreate.amount req;
     Payment.currency := "IDR";
     Payment.status := PaymentStatus.PENDING;
     Payment.midtrans_order_id := oid;
     Payment.midtrans_transaction_id := None;
     Payment.payment_method := None;
     Payment.payment_details := details;
     Payment.paid_at := None;
     Payment.expires_at := expires_at;
     Payment.created_at := now;
     Payment.updated_at := now |}.

Definition create_payment (now user : Z) (req : PaymentCreate.t) (oid : string)
  (details : list (string * Z)) (expires_at : option Z) : M Payment.t :=
  s <- get_store ;;
  match find_payment oid s with
  | Some _ => throw DuplicateOrderId
  | None =>
      let p := new_payment (next_payment_id s) now user req oid details expires_at in
      put_store
        {| payments := payments s ++ [p];
           memberships := memberships s; ads := ads s; packages := packages s;
           audit_log := audit_log s;
           next_payment_id := next_payment_id s + 1;
           next_membership_id := next_membership_id s |} ;;;
      ret p
  end.

(* ------------------------------------------------------------------ *)
(** ** The engine's operations on the store

    Each operation runs in one transaction: on an error the store is left as
    it was. *)

Inductive Op :=
| Checkout (now user : Z) (req : PaymentCreate.t) (oid : string)
           (details : list (string * Z)) (expires_at : option Z)
| Reconcile (now : Z) (cb : PaymentCallback.t)
| Sweep (now : Z)
| ConsumeAdQuota (now membership : Z)
| ConsumeBoostCredit (now membership : Z).

Definition run_tx {A} (m : M A) (s : Store) : Store :=
  match m s with inl _ => s | inr (_, s') => s' end.

Definition exec (verify : PaymentCallback.t -> bool) (s : Store) (op : Op) : Store :=
  match op with
  | Checkout now user req oid details exp =>
      run_tx (create_payment now user req oid details exp) s
  | Reconcile now cb => run_tx (reconcile verify now cb) s
  | Sweep now => sweep now s
  | ConsumeAdQuota now k => run_tx (consume_ad_quota now k) s
  | ConsumeBoostCredit now k => run_tx (consume_boost_credit now k) s
  end.

Definition run_ops (verify : PaymentCallback.t -> bool) (s : Store) (ops : list Op) : Store :=
  fold_left (exec verify) ops s.

(** A store the engine starts from: no payment and no membership yet; the
    package catalogue and the ads are given. *)
Definition initial (s : Store) : Prop := payments s = [] /\ memberships s = [].

Definition reachable (verify : PaymentCallback.t -> bool) (s : Store) : Prop :=
  exists s0 ops, initial s0 /\ s = run_ops verify s0 ops.

(* ------------------------------------------------------------------ *)
(** ** Concrete stores for the scenarios of section 8 *)

Definition pkg30 : MembershipPackage.t :=
  {| MembershipPackage.id := 1; MembershipPackage.duration_days := 30;
     MembershipPackage.max_ads := 10; MembershipPackage.boost_credits := 2;
     MembershipPackage.is_active := true |}.

Definition ad1 : Ad.t :=
  {| Ad.id := 7; Ad.user_id := 5; Ad.category_id := 1; Ad.status := AdStatus.ACTIVE;
     Ad.is_boosted := false; Ad.boost_expires_at := None; Ad.expires_at := None;
     Ad.updated_at := 0 |}.

Definition store0 : Store :=
  {| payments := []; memberships := []; ads := [ad1]; packages := [pkg30];
     audit_log := []; next_payment_id := 1; next_membership_id := 1 |}.

Definition membership_req : PaymentCreate.t :=
  {| PaymentCreate.payment_type := PaymentType.MEMBERSHIP;
     PaymentCreate.membership_package_id := Some 1;
     PaymentCreate.boosted_ad_id := None; PaymentCreate.amount := 5000000 |}.

Definition boost_req : PaymentCreate.t :=
  {| PaymentCreate.payment_type := PaymentType.AD_BOOST;
     PaymentCreate.membership_package_id := None;
     PaymentCreate.boosted_ad_id := Some 7; PaymentCreate.amount := 1000000 |}.

Definition callback (oid ts : string) : PaymentCallback.t :=
  {| PaymentCallback.order_id := oid; PaymentCallback.transaction_status := ts;
     PaymentCallback.transaction_id := None; PaymentCallback.payment_type := None;
     PaymentCallback.gross_amount := None; PaymentCallback.signature_key := Some "sig" |}.

Definition accept_all : PaymentCallback.t -> bool := fun _ => true.

(** A membership payment that is completed and then refunded. *)
Definition refund_ops : list Op :=
  [Checkout 100 5 membership_req "ORD-1" [] None;
   Reconcile 200 (callback "ORD-1" "settlement");
   Reconcile 300 (callback "ORD-1" "refund")].

(** A checkout request naming both a package and an ad. *)
Definition both_targets_req : PaymentCreate.t :=
  {| PaymentCreate.payment_type := PaymentType.MEMBERSHIP;
     PaymentCreate.membership_package_id := Some 1;
     PaymentCreate.boosted_ad_id := Some 7; PaymentCreate.amount := 5000000 |}.

(** A catalogue entry with a negative [max_ads]: the column is a plain
    [int]. *)
Definition pkg_negative : MembershipPackage.t :=
  {| MembershipPackage.id := 1; MembershipPackage.duration_days := 30;
     MembershipPackage.max_ads := -1; MembershipPackage.boost_credits := 0;
     MembershipPackage.is_active := true |}.

Definition store_negative : Store :=
  {| payments := []; memberships := []; ads := [ad1]; packages := [pkg_negative];
     audit_log := []; next_payment_id := 1; next_membership_id := 1 |}.

(** Scenario B: a second membership payment for the same user. *)
Definition two_grants_ops : list Op :=
  [Checkout 100 5 membership_req "ORD-1" [] None;
   Reconcile 200 (callback "ORD-1" "settlement");
   ConsumeAdQuota 300 1;
   Checkout 400 5 membership_req "ORD-2" [] None;
   Reconcile 500 (callback "ORD-2" "capture")].

(* ------------------------------------------------------------------ *)
(** ** Membership invariants *)

(** The active memberships of user [u]. *)
Definition active_of (u : Z) (ms : list UserMembership.t) : list UserMembership.t :=
  filter (fun m => (UserMembership.user_id m =? u) && is_active m) ms.

Definition one_active_per_user (s : Store) : Prop :=
  forall u, (List.length (active_of u (memberships s)) <= 1)%nat.

Definition counters_nonneg (s : Store) : Prop :=
  Forall (fun m => 0 <= UserMembership.remaining_ads m /\
                   0 <= UserMembership.remaining_boost_credits m) (memberships s).

Definition catalog_nonneg (s : Store) : Prop :=
  Forall (fun pk => 0 <= MembershipPackage.max_ads pk /\
                    0 <= MembershipPackage.boost_credits pk) (packages s).

(** Exclusivity of a payment's targets per [payment_type]. *)
Definition targets_match (p : Payment.t) : Prop :=
  match Payment.payment_type p with
  | PaymentType.MEMBERSHIP =>
      Payment.membership_package_id p <> None /\ Payment.boosted_ad_id p = None
  | PaymentType.AD_BOOST =>
      Payment.boosted_ad_id p <> None /\ Payment.membership_package_id p = None
  end.

(* ------------------------------------------------------------------ *)
(** ** How a payment row may change across one operation *)

(** The row keeps its key, order id, type and targets; either its status and
    [paid_at] are unchanged, or its status moved along an allowed edge, with
    [paid_at] recorded when it moved to [completed], cleared when it moved to
    [refunded] and kept otherwise. *)
Definition row_step (p p' : Payment.t) : Prop :=
  Payment.id p' = Payment.id p /\
  Payment.midtrans_order_id p' = Payment.midtrans_order_id p /\
  Payment.payment_type p' = Payment.payment_type p /\
  Payment.membership_package_id p' = Payment.membership_package_id p /\
  Payment.boosted_ad_id p' = Payment.boosted_ad_id p /\
  ((Payment.status p' = Payment.status p /\ Payment.paid_at p' = Payment.paid_at p) \/
   (allowed (Payment.status p) (Payment.status p') = true /\
    (Payment.status p' = PaymentStatus.COMPLETED -> Payment.paid_at p' <> None) /\
    (Payment.status p' = PaymentStatus.REFUNDED -> Payment.paid_at p' = None) /\
    (Payment.status p' <> PaymentStatus.COMPLETED -> Payment.status p' <> PaymentStatus.REFUNDED ->
     Payment.paid_at p' = Payment.paid_at p))).

(** A freshly created row. *)
Definition fresh_row (p : Payment.t) : Prop :=
  Payment.status p = PaymentStatus.PENDING /\ Payment.paid_at p = None.

(** The payment rows before and after an operation: the old rows, each
    changed by at most one [row_step], followed by freshly created rows. *)
Definition rows_evolve (ps ps' : list Payment.t) : Prop :=
  exists old new : list Payment.t, ps' = (old ++ new)%list /\ Forall2 row_step ps old /\ Forall fresh_row new.

(* ------------------------------------------------------------------ *)
(** ** Enum values

    A [str]-valued [Enum] is looked up by value ([PaymentStatus("pending")]),
    which is how pydantic validates an enum field and how the ORM reads the
    column back.  [UserRole] and [UserStatus] are lines 10-18. *)

Module UserRole.
Inductive t := USER | ADMIN.
End UserRole.

Module UserStatus.
Inductive t := ACTIVE | INACTIVE | SUSPENDED.
End UserStatus.

Definition UserRole_value (x : UserRole.t) : string :=
  match x with UserRole.USER => "user" | UserRole.ADMIN => "admin" end.

Definition UserStatus_value (x : UserStatus.t) : string :=
  match x with
  | UserStatus.ACTIVE => "active" | UserStatus.INACTIVE => "inactive"
  | UserStatus.SUSPENDED => "suspended"
  end.

Definition AdStatus_value (x : AdStatus.t) : string :=
  match x with
  | AdStatus.DRAFT => "draft" | AdStatus.ACTIVE => "active"
  | AdStatus.UNDER_REVIEW => "under_review" | AdStatus.REJECTED => "rejected"
  | AdStatus.EXPIRED => "expired" | AdStatus.DELETED => "deleted"
  end.

Definition PaymentStatus_value (x : PaymentStatus.t) : string :=
  match x with
  | PaymentStatus.PENDING => "pending" | PaymentStatus.COMPLETED => "completed"
  | PaymentStatus.FAILED => "failed" | PaymentStatus.CANCELLED => "cancelled"
  | PaymentStatus.REFUNDED => "refunded"
  end.

Definition MembershipStatus_value (x : MembershipStatus.t) : string :=
  match x with
  | MembershipStatus.ACTIVE => "active" | MembershipStatus.INACTIVE => "inactive"
  | MembershipStatus.EXPIRED => "expired"
  end.

Definition PaymentType_value (x : PaymentType.t) : string :=
  match x with PaymentType.MEMBERSHIP => "membership" | PaymentType.AD_BOOST => "ad_boost" end.

(** Lookup by value over the members in declaration order; [None] is the
    [ValueError] of an unknown value. *)
Definition of_value {A} (members : list A) (value : A -> string) (v : string) : option A :=
  find (fun x => String.eqb (value x) v) members.

Definition UserRole_members := [UserRole.USER; UserRole.ADMIN].
Definition UserStatus_members := [UserStatus.ACTIVE; UserStatus.INACTIVE; UserStatus.SUSPENDED].
Definition AdStatus_members :=
  [AdStatus.DRAFT; AdStatus.ACTIVE; AdStatus.UNDER_REVIEW; AdStatus.REJECTED;
   AdStatus.EXPIRED; AdStatus.DELETED].
Definition PaymentStatus_members :=
  [PaymentStatus.PENDING; PaymentStatus.COMPLETED; PaymentStatus.FAILED;
   PaymentStatus.CANCELLED; PaymentStatus.REFUNDED].
Definition MembershipStatus_members :=
  [MembershipStatus.ACTIVE; MembershipStatus.INACTIVE; MembershipStatus.EXPIRED].
Definition PaymentType_members := [PaymentType.MEMBERSHIP; PaymentType.AD_BOOST].

(* ------------------------------------------------------------------ *)
(** ** User and category request schemas (lines 214-240)

    A Python [str] is a Rocq [string] with one [ascii] per character, so
    [len] is [String.length]; [Field(max_length=n)] accepts [len(v) <= n],
    [Field(min_length=n)] accepts [len(v) >= n]. *)

Definition len_ok (lo hi : nat) (v : string) : bool :=
  (lo <=? String.length v)%nat && (String.length v <=? hi)%nat.

(** Required [str] with length bounds. *)
Definition req_str_len (lo hi : nat) (k : string) (o : Obj) : option string :=
  match req_str k o with
  | Some v => if len_ok lo hi v then Some v else None
  | None => None
  end.

(** [Optional[str] = Field(default=None, max_length=hi)]. *)
Definition opt_str_len (hi : nat) (k : string) (o : Obj) : option (option string) :=
  match opt_str k o with
  | Some (Some v) => if len_ok 0 hi v then Some (Some v) else None
  | r => r
  end.

(** [int = Field(default=d)]: a missing key takes the default, [null] is
    rejected. *)
Definition int_default (d : Z) (k : string) (o : Obj) : option Z :=
  match get k o with
  | None => Some d
  | Some _ => req_int k o
  end.

Module UserCreate.
Record t := {
  username : string;            (* max_length=50 *)
  email : string;               (* max_length=255 *)
  password : string;            (* min_length=8, max_length=100 *)
  full_name : string;           (* max_length=100 *)
  phone : option string         (* default None, max_length=20 *)
}.
End UserCreate.

Definition validate_UserCreate (o : Obj) : option UserCreate.t :=
  match req_str_len 0 50 "username" o, req_str_len 0 255 "email" o,
        req_str_len 8 100 "password" o, req_str_len 0 100 "full_name" o,
        opt_str_len 20 "phone" o with
  | Some u, Some e, Some pw, Some fn, Some ph =>
      Some {| UserCreate.username := u; UserCreate.email := e;
              UserCreate.password := pw; UserCreate.full_name := fn;
              UserCreate.phone := ph |}
  | _, _, _, _, _ => None
  end.

Module UserUpdate.
Record t := {
  username : option string;     (* max_length=50 *)
  email : option string;        (* max_length=255 *)
  full_name : option string;    (* max_length=100 *)
  phone : option string;        (* max_length=20 *)
  profile_image : option string (* max_length=500 *)
}.
End UserUpdate.

Definition validate_UserUpdate (o : Obj) : option UserUpdate.t :=
  match opt_str_len 50 "username" o, opt_str_len 255 "email" o,
        opt_str_len 100 "full_name" o, opt_str_len 20 "phone" o,
        opt_str_len 500 "profile_image" o with
  | Some u, Some e, Some fn, Some ph, Some im =>
      Some {| UserUpdate.username := u; UserUpdate.email := e;
              UserUpdate.full_name := fn; UserUpdate.phone := ph;
              UserUpdate.profile_image := im |}
  | _, _, _, _, _ => None
  end.

Module UserLogin.
Record t := {
  username : string;            (* max_length=50 *)
  password : string             (* max_length=100 *)
}.
End UserLogin.

Definition validate_UserLogin (o : Obj) : option UserLogin.t :=
  match req_str_len 0 50 "username" o, req_str_len 0 100 "password" o with
  | Some u, Some pw => Some {| UserLogin.username := u; UserLogin.password := pw |}
  | _, _ => None
  end.

Module CategoryCreate.
Record t := {
  name : string;                (* max_length=100 *)
  description : option string;  (* default None, max_length=500 *)
  icon : option string;         (* default None, max_length=100 *)
  sort_order : Z                (* default 0 *)
}.
End CategoryCreate.

Definition validate_CategoryCreate (o : Obj) : option CategoryCreate.t :=
  match req_str_len 0 100 "name" o, opt_str_len 500 "description" o,
        opt_str_len 100 "icon" o, int_default 0 "sort_order" o with
  | Some n, Some d, Some i, Some so =>
      Some {| CategoryCreate.name := n; CategoryCreate.description := d;
              CategoryCreate.icon := i; CategoryCreate.sort_order := so |}
  | _, _, _, _ => None
  end.

(* ------------------------------------------------------------------ *)
(** ** Unique columns of [users], [categories] and [system_settings]

    [Field(unique=True)] makes the database reject an INSERT whose value in
    a unique column equals that of an existing row (an [IntegrityError]; the
    table is left as it was).  Only the key columns are kept in the rows. *)

Module User.
Record t := {
  id : option Z;
  username : string;            (* unique *)
  email : string;               (* unique *)
  role : UserRole.t;            (* default USER *)
  status : UserStatus.t         (* default ACTIVE *)
}.
End User.

Module Category.
Record t := {
  id : option Z;
  name : string;                (* unique *)
  is_active : bool;             (* default True *)
  sort_order : Z                (* default 0 *)
}.
End Category.

Module SystemSetting.
Record t := {
  id : option Z;
  key : string;                 (* unique *)
  value : string;
  is_public : bool              (* default False *)
}.
End SystemSetting.

(** INSERT into a table whose unique columns are [keys].  The database
    applies its other checks too (the primary key [id], NOT NULL, the
    foreign keys, ...); they depend on the engine and are the parameter
    [other_ok]: the row is stored only when it passes them and repeats no
    value of a unique column. *)
Definition insert_unique {A} (other_ok : list A -> A -> bool)
    (keys : list (A -> string)) (x : A) (rows : list A) : option (list A) :=
  if existsb (fun r => existsb (fun k => String.eqb (k r) (k x)) keys) rows
     || negb (other_ok rows x)
  then None
  else Some (rows ++ [x])%list.

(** A sequence of INSERT statements, each in its own transaction. *)
Definition insert_all {A} (other_ok : list A -> A -> bool) (keys : list (A -> string))
    (xs : list A) (rows : list A) : list A :=
  fold_left (fun rs x => match insert_unique other_ok keys x rs with
                         | Some rs' => rs' | None => rs end)
            xs rows.

Definition user_keys : list (User.t -> string) := [User.username; User.email].
Definition category_keys : list (Category.t -> string) := [Category.name].
Definition setting_keys : list (SystemSetting.t -> string) := [SystemSetting.key].

(* ================================================================== *)
(** * Properties *)

(** ** Helper lemmas on the store operations *)

Lemma t_beq_eq (a b : PaymentStatus.t) : PaymentStatus.t_beq a b = true <-> a = b.
Proof.
  split; [apply PaymentStatus.internal_t_dec_bl | apply PaymentStatus.internal_t_dec_lb].
Qed.

Lemma find_replace_first {A} (f : A -> bool) (x y : A) (l : list A) :
  find f l = Some y -> f x = true -> find f (replace_first f x l) = Some x.
Proof.
  induction l as [|z l IH]; simpl; [discriminate|].
  destruct (f z) eqn:Hz; simpl.
  - intros _ Hx. now rewrite Hx.
  - intros H Hx. rewrite Hz. now apply IH.
Qed.

Lemma apply_effect_payments now e s u s' :
  apply_effect now e s = inr (u, s') -> payments s' = payments s.
Proof.
  destruct e as [user pkg|ad days|oid]; simpl;
    unfold grant_membership, extend_boost_m, revoke_granted_benefit,
      bind, get_store, put_store, of_option, ret, throw.
  - destruct pkg as [k|]; [|discriminate].
    destruct (find_package k s); [|discriminate].
    now intros [= _ <-].
  - destruct ad as [k|]; [|discriminate]. destruct days as [d|]; [|discriminate].
    destruct (existsb _ _); [|discriminate]. now intros [= _ <-].
  - now intros [= _ <-].
Qed.

Lemma apply_effects_payments now es s u s' :
  apply_effects now es s = inr (u, s') -> payments s' = payments s.
Proof.
  revert s. induction es as [|e es IH]; intros s; simpl.
  - unfold ret. now intros [= _ <-].
  - unfold bind. destruct (apply_effect now e s) as [err|[v s1]] eqn:He; [discriminate|].
    intros H. rewrite (IH _ H). eapply apply_effect_payments; eauto.
Qed.

(** The errors of an effect depend neither on the instant it runs at nor on
    the store's payment rows: only on the catalogue and the ads. *)
Lemma apply_effect_error_now now1 now2 e s1 s2 err :
  packages s1 = packages s2 -> ads s1 = ads s2 ->
  apply_effect now1 e s1 = inl err -> apply_effect now2 e s2 = inl err.
Proof.
  intros Hp Ha.
  destruct e as [user pkg|ad days|oid]; simpl;
    unfold grant_membership, extend_boost_m, revoke_granted_benefit,
      bind, get_store, put_store, of_option, ret, throw, find_package.
  - rewrite Hp. destruct pkg as [k|]; [|auto].
    destruct (find _ (packages s2)); [discriminate|auto].
  - rewrite Ha. destruct ad as [k|]; [|auto]. destruct days as [d|]; [|auto].
    destruct (existsb _ _); [discriminate|auto].
  - discriminate.
Qed.

Lemma apply_effects_error_now now1 now2 es s1 s2 err :
  (List.length es <= 1)%nat -> packages s1 = packages s2 -> ads s1 = ads s2 ->
  apply_effects now1 es s1 = inl err -> apply_effects now2 es s2 = inl err.
Proof.
  intros Hl Hp Ha.
  destruct es as [|e [|e' es]]; simpl in *; try lia.
  - unfold ret. discriminate.
  - unfold bind, ret.
    destruct (apply_effect now1 e s1) as [err1|[v s1']] eqn:H1; [|discriminate].
    intros [= <-]. now rewrite (apply_effect_error_now now1 now2 e s1 s2 err1 Hp Ha H1).
Qed.

Lemma effects_of_short p t : (List.length (effects_of p t) <= 1)%nat.
Proof.
  unfold effects_of.
  destruct (Payment.status p), t; try destruct (Payment.payment_type p); simpl; lia.
Qed.

Lemma apply_event_status now p ev : Payment.status (apply_event now p ev) = ev_target ev.
Proof. reflexivity. Qed.

Lemma apply_event_order now p ev :
  Payment.midtrans_order_id (apply_event now p ev) = Payment.midtrans_order_id p.
Proof. reflexivity. Qed.

Lemma transition_inv now p ev p' effs :
  transition now p ev = inr (p', effs) ->
  p' = apply_event now p ev /\ effs = effects_of p (ev_target ev)
  /\ allowed (Payment.status p) (ev_target ev) = true.
Proof.
  unfold transition.
  destruct (negb _); [discriminate|].
  destruct (allowed _ _) eqn:Ha; [|discriminate].
  now intros [= <- <-].
Qed.

Ltac unfold_monad :=
  unfold bind, get_store, put_store, of_option, ret, throw in *.

(** A delivery for a payment already in the callback's mapped status is a
    duplicate: success, and the store is left as it is. *)
Lemma reconcile_duplicate verify now cb s p :
  verify cb = true ->
  find_payment (PaymentCallback.order_id cb) s = Some p ->
  map_status (PaymentCallback.transaction_status cb) = Some (Payment.status p) ->
  reconcile verify now cb s = inr (AlreadyApplied, s).
Proof.
  intros Hv Hf Hm. unfold reconcile. unfold_monad.
  rewrite Hv; simpl. rewrite Hf, Hm.
  now rewrite (proj2 (t_beq_eq _ _) eq_refl).
Qed.

(** After a successful delivery the payment is in the callback's mapped
    status. *)
Lemma reconcile_success_status verify now cb s r s1 :
  reconcile verify now cb s = inr (r, s1) ->
  verify cb = true /\
  exists p, find_payment (PaymentCallback.order_id cb) s1 = Some p /\
            map_status (PaymentCallback.transaction_status cb) = Some (Payment.status p).
Proof.
  unfold reconcile. unfold_monad. intros H.
  destruct (verify cb) eqn:Hv; simpl in H; [|discriminate].
  split; [reflexivity|].
  destruct (find_payment _ s) as [p|] eqn:Hf; [|discriminate].
  destruct (map_status _) as [t|] eqn:Hm; [|discriminate].
  destruct (PaymentStatus.t_beq (Payment.status p) t) eqn:Hb.
  - injection H as _ <-. apply t_beq_eq in Hb. subst t. eauto.
  - destruct (allowed _ _) eqn:Ha.
    + destruct (transition _ _ _) as [e|[p' effs]] eqn:Ht; [discriminate|].
      destruct (apply_effects _ _ _) as [e|[u s2]] eqn:He; [discriminate|].
      injection H as _ <-.
      apply transition_inv in Ht as [-> [-> _]].
      apply apply_effects_payments in He. simpl in He.
      exists (apply_event now p {| ev_order_id := PaymentCallback.order_id cb;
                                   ev_target := t;
                                   ev_transaction_id := PaymentCallback.transaction_id cb;
                                   ev_paid_at := None |}).
      split; [|reflexivity].
      unfold find_payment. rewrite He.
      apply find_replace_first with (y := p); [exact Hf|].
      apply find_some in Hf as [_ Hf]. unfold order_is in *. exact Hf.
    + destruct (is_pending _); discriminate.
Qed.

(** The errors of a delivery do not depend on the instant it runs at. *)
Lemma reconcile_error_now verify now1 now2 cb s e :
  reconcile verify now1 cb s = inl e -> reconcile verify now2 cb s = inl e.
Proof.
  unfold reconcile. unfold_monad.
  destruct (verify cb); simpl; [|auto].
  destruct (find_payment _ s) as [p|]; [|auto].
  destruct (map_status _) as [t|]; [|auto].
  destruct (PaymentStatus.t_beq _ _); [discriminate|].
  destruct (allowed _ _) eqn:Ha; [|auto].
  unfold transition; simpl.
  destruct (negb _); [auto|]. rewrite Ha.
  destruct (apply_effects now1 _ _) as [e1|[u s2]] eqn:He; [|discriminate].
  intros [= <-].
  match goal with
  | |- context [apply_effects now2 ?es ?s2] =>
      apply (apply_effects_error_now now1 now2 es _ s2 e1 (effects_of_short p t))
        in He; [now rewrite He | reflexivity | reflexivity]
  end.
Qed.

(** ** Idempotent reconciliation *)

(** Claim C1.  Replaying the identical gateway callback: once a delivery has
    succeeded, a second delivery of the same callback (at any later instant)
    returns success without applying anything, so the Payment, Membership and
    Ad state after two deliveries is the state after one (side effects such
    as the [remaining_ads] grant are applied once); and a delivery for a
    Payment already in the callback's target status returns success and
    leaves the store unchanged. *)
Theorem reconcile_idempotent verify now1 now2 cb s :
  (forall r s1, reconcile verify now1 cb s = inr (r, s1) ->
                reconcile verify now2 cb s1 = inr (AlreadyApplied, s1))
  /\ run_tx (reconcile verify now2 cb) (run_tx (reconcile verify now1 cb) s)
     = run_tx (reconcile verify now1 cb) s
  /\ (verify cb = true -> forall p,
        find_payment (PaymentCallback.order_id cb) s = Some p ->
        map_status (PaymentCallback.transaction_status cb) = Some (Payment.status p) ->
        reconcile verify now1 cb s = inr (AlreadyApplied, s)).
Proof.
  assert (Hsecond : forall r s1, reconcile verify now1 cb s = inr (r, s1) ->
                    reconcile verify now2 cb s1 = inr (AlreadyApplied, s1)).
  { intros r s1 H.
    destruct (reconcile_success_status _ _ _ _ _ _ H) as [Hv [p [Hf Hm]]].
    now apply reconcile_duplicate with (p := p). }
  split; [exact Hsecond|split].
  - unfold run_tx.
    destruct (reconcile verify now1 cb s) as [e|[r s1]] eqn:H.
    + now rewrite (reconcile_error_now verify now1 now2 cb s e H).
    + now rewrite (Hsecond r s1 eq_refl).
  - intros Hv p Hf Hm. now apply reconcile_duplicate with (p := p).
Qed.

(** ** Evolution of the payment rows *)

Lemma row_step_refl p : row_step p p.
Proof. repeat split; auto. Qed.

Lemma Forall2_row_step_refl ps : Forall2 row_step ps ps.
Proof. induction ps; constructor; auto using row_step_refl. Qed.

Lemma Forall2_row_step_map f ps :
  (forall p, row_step p (f p)) -> Forall2 row_step ps (map f ps).
Proof. intros Hf. induction ps; constructor; auto. Qed.

Lemma Forall2_row_step_replace_first f x y ps :
  find f ps = Some y -> row_step y x -> Forall2 row_step ps (replace_first f x ps).
Proof.
  induction ps as [|z ps IH]; simpl; [discriminate|].
  destruct (f z).
  - intros [= <-] Hs. constructor; [exact Hs|apply Forall2_row_step_refl].
  - intros H Hs. constructor; [apply row_step_refl|auto].
Qed.

Lemma apply_event_row_step now p ev :
  allowed (Payment.status p) (ev_target ev) = true ->
  row_step p (apply_event now p ev).
Proof.
  intros Ha. repeat split. right. split; [exact Ha|].
  unfold apply_event; simpl. split; [|split].
  - intros ->. discriminate.
  - intros ->. reflexivity.
  - destruct (ev_target ev); congruence.
Qed.

Lemma reconcile_rows verify now cb s :
  Forall2 row_step (payments s) (payments (run_tx (reconcile verify now cb) s)).
Proof.
  unfold run_tx.
  destruct (reconcile verify now cb s) as [e|[r s1]] eqn:H;
    [apply Forall2_row_step_refl|].
  revert H. unfold reconcile. unfold_monad.
  destruct (verify cb); simpl; [|discriminate].
  destruct (find_payment _ s) as [p|] eqn:Hf; [|discriminate].
  destruct (map_status _) as [t|]; [|discriminate].
  destruct (PaymentStatus.t_beq _ _).
  - intros [= _ <-]. apply Forall2_row_step_refl.
  - destruct (allowed _ _) eqn:Ha.
    + destruct (transition _ _ _) as [e|[p' effs]] eqn:Ht; [discriminate|].
      destruct (apply_effects _ _ _) as [e|[u s2]] eqn:He; [discriminate|].
      intros [= _ <-].
      apply transition_inv in Ht as [-> [_ Ha']].
      apply apply_effects_payments in He. simpl in He. rewrite He.
      eapply Forall2_row_step_replace_first; [exact Hf|].
      now apply apply_event_row_step.
    + destruct (is_pending _); discriminate.
Qed.

Lemma sweep_rows now s : Forall2 row_step (payments s) (payments (sweep now s)).
Proof.
  apply Forall2_row_step_map. intros p. unfold sweep_payment.
  destruct (Payment.expires_at p) as [e|]; [|apply row_step_refl].
  destruct (is_pending (Payment.status p) && (e <? now)) eqn:H; [|apply row_step_refl].
  apply andb_prop in H as [Hp _]. unfold is_pending in Hp.
  apply PaymentStatus.internal_t_dec_bl in Hp.
  repeat split. right. unfold fail_payment; simpl. rewrite Hp.
  repeat split; auto; try (intros Hc; discriminate Hc).
Qed.

Lemma consume_ad_quota_payments now k s :
  payments (run_tx (consume_ad_quota now k) s) = payments s.
Proof.
  unfold run_tx, consume_ad_quota. unfold_monad.
  destruct (find_membership k s); [|reflexivity].
  destruct (_ || _); reflexivity.
Qed.

Lemma consume_boost_credit_payments now k s :
  payments (run_tx (consume_boost_credit now k) s) = payments s.
Proof.
  unfold run_tx, consume_boost_credit. unfold_monad.
  destruct (find_membership k s); [|reflexivity].
  destruct (_ || _); reflexivity.
Qed.

Lemma create_payment_rows now user req oid details exp s :
  payments (run_tx (create_payment now user req oid details exp) s) = payments s \/
  (find_payment oid s = None /\
   payments (run_tx (create_payment now user req oid details exp) s)
   = (payments s ++ [new_payment (next_payment_id s) now user req oid details exp])%list).
Proof.
  unfold run_tx, create_payment. unfold_monad.
  destruct (find_payment oid s) eqn:Hf; [now left|right; auto].
Qed.

Lemma exec_rows_evolve verify s op :
  rows_evolve (payments s) (payments (exec verify s op)).
Proof.
  destruct op as [now user req oid details exp|now cb|now|now k|now k]; simpl.
  - destruct (create_payment_rows now user req oid details exp s) as [H|[_ H]];
      rewrite H.
    + exists (payments s), []. rewrite app_nil_r.
      split; [reflexivity|split; [apply Forall2_row_step_refl|constructor]].
    + eexists _, _. split; [reflexivity|split; [apply Forall2_row_step_refl|]].
      constructor; [split; reflexivity|constructor].
  - exists (payments (run_tx (reconcile verify now cb) s)), [].
    rewrite app_nil_r. split; [reflexivity|split; [apply reconcile_rows|constructor]].
  - exists (payments (sweep now s)), [].
    rewrite app_nil_r. split; [reflexivity|split; [apply sweep_rows|constructor]].
  - rewrite consume_ad_quota_payments. exists (payments s), [].
    rewrite app_nil_r. split; [reflexivity|split; [apply Forall2_row_step_refl|constructor]].
  - rewrite consume_boost_credit_payments. exists (payments s), [].
    rewrite app_nil_r. split; [reflexivity|split; [apply Forall2_row_step_refl|constructor]].
Qed.

Lemma run_ops_invariant (I : Store -> Prop) verify :
  (forall s op, I s -> I (exec verify s op)) ->
  forall ops s, I s -> I (run_ops verify s ops).
Proof.
  intros Hstep ops. unfold run_ops.
  induction ops as [|op ops IH]; simpl; auto.
Qed.

Lemma Forall2_row_step_orders ps qs :
  Forall2 row_step ps qs ->
  map (fun p => (Payment.id p, Payment.midtrans_order_id p)) qs
  = map (fun p => (Payment.id p, Payment.midtrans_order_id p)) ps.
Proof.
  induction 1 as [|p q ps qs [Hi [Ho _]] _ IH]; simpl; [reflexivity|].
  now rewrite Hi, Ho, IH.
Qed.

Lemma find_payment_none_not_in oid ps :
  find (order_is oid) ps = None -> ~ In oid (map Payment.midtrans_order_id ps).
Proof.
  intros H Hin. apply in_map_iff in Hin as [p [Hp Hin]].
  apply (find_none _ _ H) in Hin. unfold order_is in Hin.
  rewrite Hp, String.eqb_refl in Hin. discriminate.
Qed.

Lemma exec_orders_nodup verify s op :
  NoDup (map Payment.midtrans_order_id (payments s)) ->
  NoDup (map Payment.midtrans_order_id (payments (exec verify s op))).
Proof.
  intros Hnd.
  assert (Hrows : forall qs, Forall2 row_step (payments s) qs ->
                  NoDup (map Payment.midtrans_order_id qs)).
  { intros qs Hq.
    assert (Heq : map Payment.midtrans_order_id qs
                  = map Payment.midtrans_order_id (payments s)).
    { clear Hnd. induction Hq as [|p q ps qs (_ & Ho & _) _ IH]; simpl;
        [reflexivity|now rewrite Ho, IH]. }
    now rewrite Heq. }
  destruct op as [now user req oid details exp|now cb|now|now k|now k]; simpl.
  - destruct (create_payment_rows now user req oid details exp s) as [H|[Hf H]];
      rewrite H; [exact Hnd|].
    rewrite map_app. simpl. apply NoDup_app; [exact Hnd| |].
    + constructor; [intros []|constructor].
    + intros a Ha [<- | []]. exact (find_payment_none_not_in _ _ Hf Ha).
  - apply Hrows, reconcile_rows.
  - apply Hrows, sweep_rows.
  - now rewrite consume_ad_quota_payments.
  - now rewrite consume_boost_credit_payments.
Qed.

(** ** Payment lifecycle *)

(** Claim C8.  A Payment row is created [pending] with [paid_at] unset, and
    across any operation of the engine an existing row either keeps its
    status or moves along [pending -> completed | failed | cancelled] or
    [completed -> refunded]. *)
Theorem payment_lifecycle_transitions verify s op :
  exists old new : list Payment.t,
    payments (exec verify s op) = (old ++ new)%list /\
    Forall2 (fun p p' => Payment.status p' = Payment.status p \/
                         allowed (Payment.status p) (Payment.status p') = true)
            (payments s) old /\
    Forall (fun p => Payment.status p = PaymentStatus.PENDING /\ Payment.paid_at p = None)
           new.
Proof.
  destruct (exec_rows_evolve verify s op) as [old [new [Heq [Hold Hnew]]]].
  exists old, new. split; [exact Heq|split; [|exact Hnew]].
  eapply Forall2_impl; [|exact Hold].
  intros p p' (_ & _ & _ & _ & _ & [[Hs _]|[Ha _]]); auto.
Qed.

(** ** Order ids *)

(** Claim C5.  In every state the engine reaches, no two Payment rows share
    a [midtrans_order_id]; and no operation changes the order id of an
    existing row (the rows, identified by their key, keep their order ids,
    and new rows are only appended). *)
Theorem order_id_unique_immutable :
  (forall verify s, reachable verify s ->
     NoDup (map Payment.midtrans_order_id (payments s)))
  /\ (forall verify s op, exists tail,
        map (fun p => (Payment.id p, Payment.midtrans_order_id p)) (payments (exec verify s op))
        = (map (fun p => (Payment.id p, Payment.midtrans_order_id p)) (payments s) ++ tail)%list).
Proof.
  split.
  - intros verify s [s0 [ops [[Hp _] ->]]].
    apply run_ops_invariant; [apply exec_orders_nodup|].
    rewrite Hp. constructor.
  - intros verify s op.
    destruct (exec_rows_evolve verify s op) as [old [new [-> [Hold _]]]].
    eexists. rewrite map_app. f_equal. now apply Forall2_row_step_orders.
Qed.

(** ** Completion and [paid_at] *)

Definition paid_iff_completed (p : Payment.t) : Prop :=
  Payment.status p = PaymentStatus.COMPLETED <-> Payment.paid_at p <> None.

Lemma row_step_paid_inv p p' :
  paid_iff_completed p -> row_step p p' -> paid_iff_completed p'.
Proof.
  unfold paid_iff_completed.
  intros Hinv (_ & _ & _ & _ & _ & [[Hs Hpa]|[Ha [Hc [Hr Hn]]]]).
  - now rewrite Hs, Hpa.
  - destruct (Payment.status p) eqn:Hsp, (Payment.status p') eqn:Hsp';
      try discriminate Ha.
    + split; [intros _; now apply Hc|reflexivity].
    + rewrite Hn by discriminate.
      split; [discriminate|intros H; apply Hinv in H; discriminate].
    + rewrite Hn by discriminate.
      split; [discriminate|intros H; apply Hinv in H; discriminate].
    + rewrite Hr by reflexivity.
      split; [discriminate|intros H; now contradiction H].
Qed.

Lemma exec_paid_inv verify s op :
  Forall paid_iff_completed (payments s) ->
  Forall paid_iff_completed (payments (exec verify s op)).
Proof.
  intros Hall.
  destruct (exec_rows_evolve verify s op) as [old [new [-> [Hold Hnew]]]].
  apply Forall_app. split.
  - induction Hold as [|p p' ps ps' Hs _ IH]; [constructor|].
    inversion Hall as [|? ? Hp Hps]; subst.
    constructor; [eapply row_step_paid_inv; eauto|auto].
  - eapply Forall_impl; [|exact Hnew].
    intros p [Hs Hpa]. unfold paid_iff_completed.
    rewrite Hs, Hpa. split; [discriminate|intros H; now contradiction H].
Qed.

(** Claim C2.  In every state the engine reaches, a Payment has [paid_at]
    set exactly when its status is [completed]: a fresh Payment is [pending]
    with [paid_at] unset, completion records [paid_at], failure, cancellation
    and expiry leave it unset, and a refund clears it. *)
Theorem paid_at_iff_completed verify s :
  reachable verify s -> Forall paid_iff_completed (payments s).
Proof.
  intros [s0 [ops [[Hp _] ->]]].
  apply run_ops_invariant; [apply exec_paid_inv|].
  rewrite Hp. constructor.
Qed.

(** ** Store invariants carried through every operation *)

Lemma reconcile_preserves (P : Store -> Prop) verify now cb s :
  (forall s ps, P s -> P (set_payments ps s)) ->
  (forall now e s u s', P s -> apply_effect now e s = inr (u, s') -> P s') ->
  P s -> P (run_tx (reconcile verify now cb) s).
Proof.
  intros Hpay Heff Hs.
  assert (Heffs : forall now es s u s', P s -> apply_effects now es s = inr (u, s') -> P s').
  { intros n es. induction es as [|e es IH]; intros s0 u s' H0; simpl; unfold_monad.
    - now intros [= _ <-].
    - destruct (apply_effect n e s0) as [err|[v s1]] eqn:He; [discriminate|].
      intros H. eapply IH; [eapply Heff; eauto|exact H]. }
  unfold run_tx.
  destruct (reconcile verify now cb s) as [e|[r s1]] eqn:H; [exact Hs|].
  revert H. unfold reconcile. unfold_monad.
  destruct (verify cb); simpl; [|discriminate].
  destruct (find_payment _ s) as [p|]; [|discriminate].
  destruct (map_status _) as [t|]; [|discriminate].
  destruct (PaymentStatus.t_beq _ _); [now intros [= _ <-]|].
  destruct (allowed _ _); [|destruct (is_pending _); discriminate].
  destruct (transition _ _ _) as [e|[p' effs]]; [discriminate|].
  destruct (apply_effects _ _ _) as [e|[u s2]] eqn:He; [discriminate|].
  intros [= _ <-]. eapply Heffs; [apply Hpay, Hs|exact He].
Qed.

Lemma active_of_map_le f u ms :
  (forall m, UserMembership.user_id (f m) = UserMembership.user_id m) ->
  (forall m, is_active (f m) = true -> is_active m = true) ->
  (List.length (active_of u (map f ms)) <= List.length (active_of u ms))%nat.
Proof.
  intros Hu Ha. induction ms as [|m ms IH]; simpl; [lia|].
  rewrite Hu.
  destruct (UserMembership.user_id m =? u); simpl; [|exact IH].
  destruct (is_active (f m)) eqn:Hf.
  - rewrite (Ha _ Hf). simpl. lia.
  - destruct (is_active m); simpl; lia.
Qed.

Lemma active_of_supersede now user ms : active_of user (map (supersede now user) ms) = [].
Proof.
  induction ms as [|m ms IH]; simpl; [reflexivity|].
  unfold supersede.
  destruct ((UserMembership.user_id m =? user) && is_active m) eqn:H; simpl.
  - change (is_active (with_membership_status now MembershipStatus.INACTIVE m)) with false.
    rewrite andb_false_r. exact IH.
  - rewrite H. exact IH.
Qed.

Lemma active_of_replace_first f x y u ms :
  find f ms = Some y ->
  UserMembership.user_id x = UserMembership.user_id y -> is_active x = is_active y ->
  List.length (active_of u (replace_first f x ms))
  = List.length (active_of u (replace_first f y ms)).
Proof.
  intros Hf Hu Ha. induction ms as [|m ms IH]; simpl in *; [reflexivity|].
  destruct (f m).
  - injection Hf as <-. simpl. rewrite Hu, Ha.
    destruct (_ && _); reflexivity.
  - simpl. destruct (_ && _); simpl; now rewrite (IH Hf).
Qed.

Lemma replace_first_found {A} f (y : A) l : find f l = Some y -> replace_first f y l = l.
Proof.
  induction l as [|z l IH]; simpl; [discriminate|].
  destruct (f z) eqn:Hz; [now intros [= ->]|intros H; now rewrite IH].
Qed.

Lemma with_membership_status_user now st m :
  UserMembership.user_id (with_membership_status now st m) = UserMembership.user_id m.
Proof. reflexivity. Qed.

Lemma grant_one_active now user pkg s u s' :
  one_active_per_user s -> grant_membership now user pkg s = inr (u, s') ->
  one_active_per_user s'.
Proof.
  unfold grant_membership. unfold_monad.
  intros Hs H.
  destruct pkg as [k|]; [|discriminate].
  destruct (find_package k s) as [pk|]; [|discriminate].
  injection H as _ <-. intros v. simpl.
  unfold active_of. rewrite filter_app. fold (active_of v (map (supersede now user) (memberships s))).
  rewrite length_app. simpl.
  destruct (Z.eq_dec user v) as [<-|Hne].
  - rewrite active_of_supersede, Z.eqb_refl. simpl. lia.
  - rewrite (proj2 (Z.eqb_neq user v) Hne). simpl.
    pose proof (active_of_map_le (supersede now user) v (memberships s)) as Hle.
    assert (Hsv := Hs v).
    enough (List.length (active_of v (map (supersede now user) (memberships s)))
            <= List.length (active_of v (memberships s)))%nat by lia.
    apply Hle.
    + intros m. unfold supersede. destruct (_ && _); reflexivity.
    + intros m. unfold supersede.
      destruct ((UserMembership.user_id m =? user) && is_active m) eqn:E; [discriminate|auto].
Qed.

Lemma exec_one_active verify s op :
  one_active_per_user s -> one_active_per_user (exec verify s op).
Proof.
  intros Hs.
  destruct op as [now user req oid details exp|now cb|now|now k|now k]; simpl.
  - unfold run_tx, create_payment. unfold_monad.
    destruct (find_payment oid s); exact Hs.
  - apply reconcile_preserves; [auto| |exact Hs].
    intros n e s0 u s' H0. destruct e as [user pkg|ad days|oid]; simpl.
    + apply grant_one_active. exact H0.
    + unfold extend_boost_m. unfold_monad.
      destruct ad; [|discriminate]. destruct days; [|discriminate].
      destruct (existsb _ _); [|discriminate]. now intros [= _ <-].
    + unfold revoke_granted_benefit. unfold_monad. now intros [= _ <-].
  - intros u. simpl. eapply Nat.le_trans; [apply active_of_map_le|apply Hs].
    + intros m. unfold sweep_membership. destruct (_ && _); reflexivity.
    + intros m. unfold sweep_membership.
      destruct (is_active m && _) eqn:E; [discriminate|auto].
  - unfold run_tx, consume_ad_quota. unfold_monad.
    destruct (find_membership k s) as [m|] eqn:Hf; [|exact Hs].
    destruct (_ || _); [exact Hs|]. intros u. simpl.
    rewrite (active_of_replace_first _ _ m); [|exact Hf|reflexivity|reflexivity].
    rewrite replace_first_found by exact Hf. apply Hs.
  - unfold run_tx, consume_boost_credit. unfold_monad.
    destruct (find_membership k s) as [m|] eqn:Hf; [|exact Hs].
    destruct (_ || _); [exact Hs|]. intros u. simpl.
    rewrite (active_of_replace_first _ _ m); [|exact Hf|reflexivity|reflexivity].
    rewrite replace_first_found by exact Hf. apply Hs.
Qed.

(** ** At most one active membership *)

(** Claim C3.  In every state the engine reaches, every user has at most one
    active UserMembership; in particular GrantMembership, which forces the
    user's active membership to [inactive] and adds a new active one, keeps
    this property. *)
Theorem at_most_one_active_membership :
  (forall verify s, reachable verify s -> one_active_per_user s)
  /\ (forall now user pkg s u s', one_active_per_user s ->
        grant_membership now user pkg s = inr (u, s') -> one_active_per_user s').
Proof.
  split.
  - intros verify s [s0 [ops [[_ Hm] ->]]].
    apply run_ops_invariant; [apply exec_one_active|].
    intros u. rewrite Hm. simpl. lia.
  - exact grant_one_active.
Qed.

(** ** Quota counters *)

Lemma Forall_replace_first {A} (P : A -> Prop) f x l :
  Forall P l -> P x -> Forall P (replace_first f x l).
Proof.
  intros Hl Hx. induction Hl as [|y l Hy Hl IH]; simpl; [constructor|].
  destruct (f y); constructor; auto.
Qed.

Definition quota_inv (s : Store) : Prop := counters_nonneg s /\ catalog_nonneg s.

Lemma grant_quota_inv now user pkg s u s' :
  quota_inv s -> grant_membership now user pkg s = inr (u, s') -> quota_inv s'.
Proof.
  unfold grant_membership. unfold_monad.
  intros [Hc Hk] H.
  destruct pkg as [k|]; [|discriminate].
  destruct (find_package k s) as [pk|] eqn:Hf; [|discriminate].
  injection H as _ <-. split; [|exact Hk].
  unfold counters_nonneg; simpl. apply Forall_app. split.
  - apply Forall_map. eapply Forall_impl; [|exact Hc].
    intros m Hm. unfold supersede. destruct (_ && _); exact Hm.
  - constructor; [|constructor]. simpl.
    apply find_some in Hf as [Hin _].
    exact (proj1 (Forall_forall _ _) Hk pk Hin).
Qed.

Lemma exec_quota_inv verify s op : quota_inv s -> quota_inv (exec verify s op).
Proof.
  intros Hs.
  destruct op as [now user req oid details exp|now cb|now|now k|now k]; simpl.
  - unfold run_tx, create_payment. unfold_monad.
    destruct (find_payment oid s); exact Hs.
  - apply reconcile_preserves; [auto| |exact Hs].
    intros n e s0 u s' H0. destruct e as [user pkg|ad days|oid]; simpl.
    + apply grant_quota_inv. exact H0.
    + unfold extend_boost_m. unfold_monad.
      destruct ad; [|discriminate]. destruct days; [|discriminate].
      destruct (existsb _ _); [|discriminate]. now intros [= _ <-].
    + unfold revoke_granted_benefit. unfold_monad. now intros [= _ <-].
  - destruct Hs as [Hc Hk]. split; [|exact Hk].
    unfold counters_nonneg; simpl. apply Forall_map.
    eapply Forall_impl; [|exact Hc].
    intros m Hm. unfold sweep_membership. destruct (_ && _); exact Hm.
  - unfold run_tx, consume_ad_quota. unfold_monad.
    destruct (find_membership k s) as [m|] eqn:Hf; [|exact Hs].
    destruct (negb (is_active m) || (UserMembership.remaining_ads m =? 0)) eqn:E;
      [exact Hs|].
    destruct Hs as [Hc Hk]. split; [|exact Hk].
    apply orb_false_iff in E as [_ E]. apply Z.eqb_neq in E.
    apply find_some in Hf as [Hin _].
    pose proof (proj1 (Forall_forall _ _) Hc m Hin) as [Ha Hb].
    unfold counters_nonneg; simpl. apply Forall_replace_first; [exact Hc|].
    simpl. lia.
  - unfold run_tx, consume_boost_credit. unfold_monad.
    destruct (find_membership k s) as [m|] eqn:Hf; [|exact Hs].
    destruct (negb (is_active m) || (UserMembership.remaining_boost_credits m =? 0)) eqn:E;
      [exact Hs|].
    destruct Hs as [Hc Hk]. split; [|exact Hk].
    apply orb_false_iff in E as [_ E]. apply Z.eqb_neq in E.
    apply find_some in Hf as [Hin _].
    pose proof (proj1 (Forall_forall _ _) Hc m Hin) as [Ha Hb].
    unfold counters_nonneg; simpl. apply Forall_replace_first; [exact Hc|].
    simpl. lia.
Qed.

(** Claim C4, as stated: a catalogue entry with a negative [max_ads] (a
    plain [int] column) gives a membership whose [remaining_ads] is
    negative. *)
Lemma quota_negative_counterexample :
  ~ (forall verify s, reachable verify s -> counters_nonneg s).
Proof.
  intros H.
  set (ops := [Checkout 100 5 membership_req "ORD-1" [] None;
               Reconcile 200 (callback "ORD-1" "settlement")]).
  assert (Hr : reachable accept_all (run_ops accept_all store_negative ops)).
  { exists store_negative, ops. split; [split; reflexivity|reflexivity]. }
  specialize (H _ _ Hr). unfold counters_nonneg in H. vm_compute in H.
  inversion H as [|m ms [Hm _] _]; subst. now apply Hm.
Qed.

(** Claim C4, amended.  When every catalogue entry has [max_ads >= 0] and
    [boost_credits >= 0] (the model's [int] columns do not enforce it), every
    UserMembership keeps [remaining_ads >= 0] and
    [remaining_boost_credits >= 0] in every state the engine reaches;
    ConsumeAdQuota fails with [QuotaExhausted] when [remaining_ads == 0] and
    otherwise, on an active membership, decrements it by one; and
    ConsumeBoostCredit does the same over [remaining_boost_credits]. *)
Theorem quota_counters_nonneg :
  (forall verify s0 ops, initial s0 -> catalog_nonneg s0 ->
     counters_nonneg (run_ops verify s0 ops))
  /\ (forall now k s m, find_membership k s = Some m ->
        UserMembership.remaining_ads m = 0 ->
        consume_ad_quota now k s = inl QuotaExhausted)
  /\ (forall now k s m, find_membership k s = Some m ->
        UserMembership.remaining_boost_credits m = 0 ->
        consume_boost_credit now k s = inl QuotaExhausted)
  /\ (forall now k s m, find_membership k s = Some m -> is_active m = true ->
        UserMembership.remaining_ads m <> 0 ->
        consume_ad_quota now k s
        = inr (tt, set_memberships (replace_first (membership_is k) (decrement_ads now m)
                                      (memberships s)) s)
        /\ UserMembership.remaining_ads (decrement_ads now m)
           = UserMembership.remaining_ads m - 1)
  /\ (forall now k s m, find_membership k s = Some m -> is_active m = true ->
        UserMembership.remaining_boost_credits m <> 0 ->
        consume_boost_credit now k s
        = inr (tt, set_memberships (replace_first (membership_is k)
                                      (decrement_boost_credits now m) (memberships s)) s)
        /\ UserMembership.remaining_boost_credits (decrement_boost_credits now m)
           = UserMembership.remaining_boost_credits m - 1).
Proof.
  split; [|split; [|split; [|split]]].
  - intros verify s0 ops [_ Hm] Hk.
    enough (quota_inv (run_ops verify s0 ops)) by apply H.
    apply run_ops_invariant; [apply exec_quota_inv|].
    split; [unfold counters_nonneg; rewrite Hm; constructor|exact Hk].
  - intros now k s m Hf H0. unfold consume_ad_quota. unfold_monad.
    rewrite Hf, H0. simpl. now rewrite orb_true_r.
  - intros now k s m Hf H0. unfold consume_boost_credit. unfold_monad.
    rewrite Hf, H0. simpl. now rewrite orb_true_r.
  - intros now k s m Hf Ha H0. unfold consume_ad_quota. unfold_monad.
    rewrite Hf, Ha, (proj2 (Z.eqb_neq _ _) H0). split; reflexivity.
  - intros now k s m Hf Ha H0. unfold consume_boost_credit. unfold_monad.
    rewrite Hf, Ha, (proj2 (Z.eqb_neq _ _) H0). split; reflexivity.
Qed.

(** ** Payment targets *)

(** Claim C9, as stated: a checkout request of type [membership] that also
    names an ad is stored with both targets set. *)
Lemma payment_targets_counterexample :
  ~ (forall verify s, reachable verify s -> Forall targets_match (payments s)).
Proof.
  intros H.
  set (ops := [Checkout 100 5 both_targets_req "ORD-9" [] None]).
  assert (Hr : reachable accept_all (run_ops accept_all store0 ops)).
  { exists store0, ops. split; [split; reflexivity|reflexivity]. }
  specialize (H _ _ Hr). vm_compute in H.
  inversion H as [|p ps Hp _]; subst. simpl in Hp. destruct Hp as [_ Hp]. discriminate Hp.
Qed.

(** Claim C9, amended.  Exclusivity is not checked: a Payment takes its type
    and both target ids from the [PaymentCreate] request unchanged, and no
    operation of the engine changes them afterwards; so the two targets are
    exclusive per [payment_type] exactly when the request's were. *)
Theorem payment_targets_as_requested :
  (forall pid now user req oid details exp,
     let p := new_payment pid now user req oid details exp in
     Payment.payment_type p = PaymentCreate.payment_type req /\
     Payment.membership_package_id p = PaymentCreate.membership_package_id req /\
     Payment.boosted_ad_id p = PaymentCreate.boosted_ad_id req)
  /\ (forall verify s op, exists old new : list Payment.t,
        payments (exec verify s op) = (old ++ new)%list /\
        Forall2 (fun p p' =>
                   Payment.payment_type p' = Payment.payment_type p /\
                   Payment.membership_package_id p' = Payment.membership_package_id p /\
                   Payment.boosted_ad_id p' = Payment.boosted_ad_id p)
                (payments s) old).
Proof.
  split.
  - intros. repeat split.
  - intros verify s op.
    destruct (exec_rows_evolve verify s op) as [old [new [Heq [Hold _]]]].
    exists old, new. split; [exact Heq|].
    eapply Forall2_impl; [|exact Hold].
    intros p p' (_ & _ & Ht & Hm & Hb & _). auto.
Qed.

(** ** Boost extension *)

(** Claim C6.  ExtendBoost sets [is_boosted] and sets [boost_expires_at] to
    [max(now, current boost_expires_at) + days]; a second boost of 3 days at
    [T+5d] on an ad whose boost expires at [T+7d] expires at [T+10d]. *)
Theorem extend_boost_stacks now days a :
  Ad.is_boosted (extend_boost now days a) = true /\
  Ad.boost_expires_at (extend_boost now days a)
  = Some (Z.max now (match Ad.boost_expires_at a with Some e => e | None => now end)
          + days * seconds_per_day) /\
  (forall T, now = T + 5 * seconds_per_day ->
     Ad.boost_expires_at a = Some (T + 7 * seconds_per_day) -> days = 3 ->
     Ad.boost_expires_at (extend_boost now days a) = Some (T + 10 * seconds_per_day)).
Proof.
  split; [reflexivity|split; [reflexivity|]].
  intros T -> He ->. simpl. rewrite He. unfold seconds_per_day.
  f_equal. lia.
Qed.

(** ** Validation of request bodies *)

(** Claim C7, as stated: a callback body without [signature_key] is
    accepted, with [signature_key = None]. *)
Lemma callback_without_signature_counterexample :
  exists v, validate_PaymentCallback [("order_id", JStr "ORD-1");
                                      ("transaction_status", JStr "settlement")] = Some v
            /\ PaymentCallback.signature_key v = None.
Proof. eexists. split; [reflexivity|reflexivity]. Qed.

Lemma req_str_get k o v : req_str k o = Some v <-> get k o = Some (JStr v).
Proof.
  unfold req_str. destruct (get k o) as [[|z|w]|]; split; try discriminate; congruence.
Qed.

Lemma opt_str_get k o x : opt_str k o = Some x <-> opt_str_value k o x.
Proof.
  unfold opt_str, opt_str_value.
  destruct (get k o) as [[|z|w]|], x as [v|]; split; intros H;
    try discriminate; try congruence; auto;
    try (destruct H as [H|H]; discriminate); injection H as <-; reflexivity.
Qed.

(** Claim C7, amended.  [signature_key] is an optional string defaulting to
    [None], like the other gateway fields: a callback body is accepted
    exactly when [order_id] and [transaction_status] are strings and each of
    [transaction_id], [payment_type], [gross_amount] and [signature_key] is
    missing, null or a string.  A body without [order_id] or
    [transaction_status] is rejected; one without [signature_key] is
    accepted with [signature_key = None], one with a string [signature_key]
    keeps it. *)
Theorem callback_signature_optional (o : Obj) (c : PaymentCallback.t) :
  validate_PaymentCallback o = Some c <->
  get "order_id" o = Some (JStr (PaymentCallback.order_id c)) /\
  get "transaction_status" o = Some (JStr (PaymentCallback.transaction_status c)) /\
  opt_str_value "transaction_id" o (PaymentCallback.transaction_id c) /\
  opt_str_value "payment_type" o (PaymentCallback.payment_type c) /\
  opt_str_value "gross_amount" o (PaymentCallback.gross_amount c) /\
  opt_str_value "signature_key" o (PaymentCallback.signature_key c).
Proof.
  rewrite <- !req_str_get, <- !opt_str_get. unfold validate_PaymentCallback. split.
  - destruct (req_str "order_id" o), (req_str "transaction_status" o),
      (opt_str "transaction_id" o), (opt_str "payment_type" o),
      (opt_str "gross_amount" o), (opt_str "signature_key" o);
      try discriminate.
    intros [= <-]. simpl. repeat split.
  - intros (-> & -> & -> & -> & -> & ->). now destruct c.
Qed.

(** Claim C10.  An accepted AdBoost request has [1 <= duration_days <= 30];
    a request whose [duration_days] is an integer outside that range is
    rejected. *)
Theorem adboost_duration_range (o : Obj) :
  (forall b, validate_AdBoost o = Some b -> 1 <= AdBoost.duration_days b <= 30)
  /\ (forall a d, req_int "ad_id" o = Some a -> req_int "duration_days" o = Some d ->
        (validate_AdBoost o <> None <-> 1 <= d <= 30)).
Proof.
  unfold validate_AdBoost. split.
  - intros b.
    destruct (req_int "ad_id" o) as [a|]; [|discriminate].
    destruct (req_int "duration_days" o) as [d|]; [|discriminate].
    destruct ((1 <=? d) && (d <=? 30)) eqn:E; [|discriminate].
    intros [= <-]. simpl. apply andb_prop in E as [E1 E2].
    apply Z.leb_le in E1, E2. lia.
  - intros a d -> ->.
    destruct ((1 <=? d) && (d <=? 30)) eqn:E.
    + apply andb_prop in E as [E1 E2]. apply Z.leb_le in E1, E2.
      split; [lia|discriminate].
    + split; [intros H; now contradiction H|].
      intros [H1 H2]. apply Z.leb_le in H1, H2. now rewrite H1, H2 in E.
Qed.

(** ** Instances on concrete stores *)

Lemma reconcile_idempotent_witness :
  reconcile accept_all 400 (callback "ORD-1" "settlement")
    (run_ops accept_all store0 [Checkout 100 5 membership_req "ORD-1" [] None;
                                Reconcile 200 (callback "ORD-1" "settlement")])
  = inr (AlreadyApplied,
         run_ops accept_all store0 [Checkout 100 5 membership_req "ORD-1" [] None;
                                    Reconcile 200 (callback "ORD-1" "settlement")]).
Proof.
  destruct (reconcile_idempotent accept_all 400 400 (callback "ORD-1" "settlement")
              (run_ops accept_all store0 [Checkout 100 5 membership_req "ORD-1" [] None;
                                          Reconcile 200 (callback "ORD-1" "settlement")]))
    as [_ [_ H]].
  eapply H; reflexivity.
Defined.

Lemma paid_at_iff_completed_witness :
  Forall paid_iff_completed (payments (run_ops accept_all store0 refund_ops)).
Proof.
  apply (paid_at_iff_completed accept_all).
  exists store0, refund_ops. split; [split; reflexivity|reflexivity].
Defined.

Lemma at_most_one_active_membership_witness :
  one_active_per_user (run_ops accept_all store0 two_grants_ops).
Proof.
  apply (proj1 at_most_one_active_membership accept_all).
  exists store0, two_grants_ops. split; [split; reflexivity|reflexivity].
Defined.

Lemma quota_counters_nonneg_witness :
  counters_nonneg (run_ops accept_all store0 two_grants_ops).
Proof.
  apply (proj1 quota_counters_nonneg accept_all store0 two_grants_ops).
  - split; reflexivity.
  - constructor; [simpl; lia|constructor].
Defined.

Lemma order_id_unique_immutable_witness :
  NoDup (map Payment.midtrans_order_id (payments (run_ops accept_all store0 two_grants_ops))).
Proof.
  apply (proj1 order_id_unique_immutable accept_all).
  exists store0, two_grants_ops. split; [split; reflexivity|reflexivity].
Defined.

Lemma extend_boost_stacks_witness :
  Ad.boost_expires_at (extend_boost (5 * seconds_per_day) 3 (extend_boost 0 7 ad1))
  = Some (0 + 10 * seconds_per_day).
Proof.
  destruct (extend_boost_stacks (5 * seconds_per_day) 3 (extend_boost 0 7 ad1)) as [_ [_ H]].
  apply (H 0); reflexivity.
Defined.

Lemma adboost_duration_range_witness :
  1 <= AdBoost.duration_days {| AdBoost.ad_id := 7; AdBoost.duration_days := 7 |} <= 30
  /\ validate_AdBoost [("ad_id", JInt 7); ("duration_days", JStr "31")] = None.
Proof.
  split.
  - apply (proj1 (adboost_duration_range [("ad_id", JInt 7); ("duration_days", JInt 7)])).
    reflexivity.
  - destruct (proj2 (adboost_duration_range [("ad_id", JInt 7); ("duration_days", JStr "31")])
                7 31 eq_refl eq_refl) as [H _].
    destruct (validate_AdBoost _) as [b|] eqn:E; [|reflexivity].
    exfalso. assert (Hr : 1 <= 31 <= 30) by (apply H; discriminate). lia.
Defined.

(** ** Enum values *)

Lemma of_value_sound {A} (members : list A) value v x :
  of_value members value v = Some x -> value x = v.
Proof. intros H. apply find_some in H as [_ H]. now apply String.eqb_eq. Qed.

(** The value of every member of the six enums (lines 10-46) is looked up
    back to that member, and a successful lookup returns a member with that
    value. *)
Theorem enum_value_roundtrip :
  (forall x, of_value UserRole_members UserRole_value (UserRole_value x) = Some x) /\
  (forall x, of_value UserStatus_members UserStatus_value (UserStatus_value x) = Some x) /\
  (forall x, of_value AdStatus_members AdStatus_value (AdStatus_value x) = Some x) /\
  (forall x, of_value PaymentStatus_members PaymentStatus_value (PaymentStatus_value x) = Some x) /\
  (forall x, of_value MembershipStatus_members MembershipStatus_value
                      (MembershipStatus_value x) = Some x) /\
  (forall x, of_value PaymentType_members PaymentType_value (PaymentType_value x) = Some x) /\
  (forall {A} (members : list A) value v x, of_value members value v = Some x -> value x = v).
Proof.
  repeat split; try (intros []; reflexivity).
  exact @of_value_sound.
Qed.

(** ** Request schemas *)

Lemma req_str_len_spec lo hi k o v :
  req_str_len lo hi k o = Some v <->
  req_str k o = Some v /\ (lo <= String.length v <= hi)%nat.
Proof.
  unfold req_str_len, len_ok. destruct (req_str k o) as [w|].
  - destruct ((lo <=? String.length w)%nat && (String.length w <=? hi)%nat) eqn:E.
    + apply andb_prop in E as [E1 E2]. apply Nat.leb_le in E1, E2.
      split; [intros [= <-]; auto|intros [[= <-] _]; reflexivity].
    + split; [discriminate|]. intros [[= <-] [H1 H2]].
      apply Nat.leb_le in H1, H2. now rewrite H1, H2 in E.
  - split; [discriminate|intros [H _]; discriminate].
Qed.

Lemma opt_str_len_spec hi k o r :
  opt_str_len hi k o = Some r <->
  opt_str k o = Some r /\ (forall v, r = Some v -> (String.length v <= hi)%nat).
Proof.
  unfold opt_str_len, len_ok. destruct (opt_str k o) as [[w|]|].
  - simpl. destruct (String.length w <=? hi)%nat eqn:E.
    + apply Nat.leb_le in E.
      split; [intros [= <-]; split; [reflexivity|now intros v [= <-]]|].
      intros [[= <-] _]. reflexivity.
    + split; [discriminate|]. intros [[= <-] H].
      specialize (H w eq_refl). apply Nat.leb_le in H. congruence.
  - split; [intros [= <-]; split; [reflexivity|discriminate]|intros [H _]; exact H].
  - split; [discriminate|intros [H _]; discriminate].
Qed.

Ltac split_spec H :=
  first [ apply req_str_len_spec in H as [? ?]
        | apply opt_str_len_spec in H as [? ?] ].

(** [UserCreate] (lines 214-219) accepts a body exactly when [username],
    [email], [password] and [full_name] are strings of at most 50, 255, 100
    and 100 characters, [password] has at least 8 characters, and [phone] is
    missing, null or a string of at most 20 characters. *)
Theorem validate_UserCreate_spec o u :
  validate_UserCreate o = Some u <->
  (req_str "username" o = Some (UserCreate.username u) /\
   (String.length (UserCreate.username u) <= 50)%nat) /\
  (req_str "email" o = Some (UserCreate.email u) /\
   (String.length (UserCreate.email u) <= 255)%nat) /\
  (req_str "password" o = Some (UserCreate.password u) /\
   (8 <= String.length (UserCreate.password u) <= 100)%nat) /\
  (req_str "full_name" o = Some (UserCreate.full_name u) /\
   (String.length (UserCreate.full_name u) <= 100)%nat) /\
  (opt_str "phone" o = Some (UserCreate.phone u) /\
   (forall p, UserCreate.phone u = Some p -> (String.length p <= 20)%nat)).
Proof.
  unfold validate_UserCreate. split.
  - destruct (req_str_len 0 50 "username" o) eqn:H1; [|discriminate].
    destruct (req_str_len 0 255 "email" o) eqn:H2; [|discriminate].
    destruct (req_str_len 8 100 "password" o) eqn:H3; [|discriminate].
    destruct (req_str_len 0 100 "full_name" o) eqn:H4; [|discriminate].
    destruct (opt_str_len 20 "phone" o) eqn:H5; [|discriminate].
    intros [= <-]; simpl.
    split_spec H1; split_spec H2; split_spec H3; split_spec H4; split_spec H5.
    repeat split; auto; lia.
  - intros ([H1 L1] & [H2 L2] & [H3 L3] & [H4 L4] & [H5 L5]).
    rewrite (proj2 (req_str_len_spec 0 50 _ o _)) by (split; [exact H1|first [lia|assumption]]).
    rewrite (proj2 (req_str_len_spec 0 255 _ o _)) by (split; [exact H2|first [lia|assumption]]).
    rewrite (proj2 (req_str_len_spec 8 100 _ o _)) by (split; [exact H3|first [lia|assumption]]).
    rewrite (proj2 (req_str_len_spec 0 100 _ o _)) by (split; [exact H4|first [lia|assumption]]).
    rewrite (proj2 (opt_str_len_spec 20 _ o _)) by (split; [exact H5|first [lia|assumption]]).
    now destruct u.
Qed.

(** [UserLogin] (lines 230-232) accepts a body exactly when [username] and
    [password] are strings of at most 50 and 100 characters: unlike
    [UserCreate], it sets no minimum password length. *)
Theorem validate_UserLogin_spec o u :
  validate_UserLogin o = Some u <->
  (req_str "username" o = Some (UserLogin.username u) /\
   (String.length (UserLogin.username u) <= 50)%nat) /\
  (req_str "password" o = Some (UserLogin.password u) /\
   (String.length (UserLogin.password u) <= 100)%nat).
Proof.
  unfold validate_UserLogin. split.
  - destruct (req_str_len 0 50 "username" o) eqn:H1; [|discriminate].
    destruct (req_str_len 0 100 "password" o) eqn:H2; [|discriminate].
    intros [= <-]; simpl. split_spec H1; split_spec H2.
    repeat split; auto; lia.
  - intros ([H1 L1] & [H2 L2]).
    rewrite (proj2 (req_str_len_spec 0 50 _ o _)) by (split; [exact H1|first [lia|assumption]]).
    rewrite (proj2 (req_str_len_spec 0 100 _ o _)) by (split; [exact H2|first [lia|assumption]]).
    now destruct u.
Qed.

(** [UserUpdate] (lines 222-227) accepts a body exactly when each of its five
    fields is missing, null, or a string within its [max_length]; a missing
    field is [None], so the empty body is a valid update that sets nothing. *)
Theorem validate_UserUpdate_spec o u :
  validate_UserUpdate o = Some u <->
  (opt_str "username" o = Some (UserUpdate.username u) /\
   (forall v, UserUpdate.username u = Some v -> (String.length v <= 50)%nat)) /\
  (opt_str "email" o = Some (UserUpdate.email u) /\
   (forall v, UserUpdate.email u = Some v -> (String.length v <= 255)%nat)) /\
  (opt_str "full_name" o = Some (UserUpdate.full_name u) /\
   (forall v, UserUpdate.full_name u = Some v -> (String.length v <= 100)%nat)) /\
  (opt_str "phone" o = Some (UserUpdate.phone u) /\
   (forall v, UserUpdate.phone u = Some v -> (String.length v <= 20)%nat)) /\
  (opt_str "profile_image" o = Some (UserUpdate.profile_image u) /\
   (forall v, UserUpdate.profile_image u = Some v -> (String.length v <= 500)%nat)).
Proof.
  unfold validate_UserUpdate. split.
  - destruct (opt_str_len 50 "username" o) eqn:H1; [|discriminate].
    destruct (opt_str_len 255 "email" o) eqn:H2; [|discriminate].
    destruct (opt_str_len 100 "full_name" o) eqn:H3; [|discriminate].
    destruct (opt_str_len 20 "phone" o) eqn:H4; [|discriminate].
    destruct (opt_str_len 500 "profile_image" o) eqn:H5; [|discriminate].
    intros [= <-]; simpl.
    split_spec H1; split_spec H2; split_spec H3; split_spec H4; split_spec H5.
    repeat split; auto.
  - intros ([H1 L1] & [H2 L2] & [H3 L3] & [H4 L4] & [H5 L5]).
    rewrite (proj2 (opt_str_len_spec 50 _ o _)) by (split; [exact H1|first [lia|assumption]]).
    rewrite (proj2 (opt_str_len_spec 255 _ o _)) by (split; [exact H2|first [lia|assumption]]).
    rewrite (proj2 (opt_str_len_spec 100 _ o _)) by (split; [exact H3|first [lia|assumption]]).
    rewrite (proj2 (opt_str_len_spec 20 _ o _)) by (split; [exact H4|first [lia|assumption]]).
    rewrite (proj2 (opt_str_len_spec 500 _ o _)) by (split; [exact H5|first [lia|assumption]]).
    now destruct u.
Qed.

Lemma int_default_spec d k o z :
  int_default d k o = Some z <->
  (get k o = None /\ z = d) \/ (get k o <> None /\ req_int k o = Some z).
Proof.
  unfold int_default. destruct (get k o) eqn:E.
  - split; [intros H; right; split; [discriminate|exact H]|].
    intros [[H _]|[_ H]]; [discriminate|exact H].
  - split; [intros [= <-]; left; auto|].
    intros [[_ ->]|[H _]]; [reflexivity|congruence].
Qed.

(** The validation of [CategoryCreate], with [sort_order] in any form. *)
Lemma validate_CategoryCreate_iff o c :
  validate_CategoryCreate o = Some c <->
  (req_str "name" o = Some (CategoryCreate.name c) /\
   (String.length (CategoryCreate.name c) <= 100)%nat) /\
  (opt_str "description" o = Some (CategoryCreate.description c) /\
   (forall v, CategoryCreate.description c = Some v -> (String.length v <= 500)%nat)) /\
  (opt_str "icon" o = Some (CategoryCreate.icon c) /\
   (forall v, CategoryCreate.icon c = Some v -> (String.length v <= 100)%nat)) /\
  ((get "sort_order" o = None /\ CategoryCreate.sort_order c = 0) \/
   (get "sort_order" o <> None /\ req_int "sort_order" o = Some (CategoryCreate.sort_order c))).
Proof.
  unfold validate_CategoryCreate. split.
  - destruct (req_str_len 0 100 "name" o) eqn:H1; [|discriminate].
    destruct (opt_str_len 500 "description" o) eqn:H2; [|discriminate].
    destruct (opt_str_len 100 "icon" o) eqn:H3; [|discriminate].
    destruct (int_default 0 "sort_order" o) eqn:H4; [|discriminate].
    intros [= <-]; simpl.
    split_spec H1; split_spec H2; split_spec H3. apply int_default_spec in H4.
    repeat split; auto; lia.
  - intros ([H1 L1] & [H2 L2] & [H3 L3] & H4).
    rewrite (proj2 (req_str_len_spec 0 100 "name" o _)) by (split; [exact H1|lia]).
    rewrite (proj2 (opt_str_len_spec 500 "description" o _)) by (split; [exact H2|exact L2]).
    rewrite (proj2 (opt_str_len_spec 100 "icon" o _)) by (split; [exact H3|exact L3]).
    rewrite (proj2 (int_default_spec 0 "sort_order" o _)) by exact H4.
    now destruct c.
Qed.

(** [CategoryCreate] (lines 235-239): when [sort_order] is missing the body
    is accepted exactly when [name] is a string of at most 100 characters
    and [description] and [icon] are missing, null or strings of at most 500
    and 100 characters, and [sort_order] is then 0; when [sort_order] is a
    JSON integer the same conditions decide and [sort_order] keeps its
    value; a [null] [sort_order] is rejected. *)
Theorem validate_CategoryCreate_sort_order o c :
  let fields_ok :=
    (req_str "name" o = Some (CategoryCreate.name c) /\
     (String.length (CategoryCreate.name c) <= 100)%nat) /\
    (opt_str "description" o = Some (CategoryCreate.description c) /\
     (forall v, CategoryCreate.description c = Some v -> (String.length v <= 500)%nat)) /\
    (opt_str "icon" o = Some (CategoryCreate.icon c) /\
     (forall v, CategoryCreate.icon c = Some v -> (String.length v <= 100)%nat)) in
  (get "sort_order" o = None ->
   (validate_CategoryCreate o = Some c <-> fields_ok /\ CategoryCreate.sort_order c = 0)) /\
  (forall z, get "sort_order" o = Some (JInt z) ->
   (validate_CategoryCreate o = Some c <-> fields_ok /\ CategoryCreate.sort_order c = z)) /\
  (get "sort_order" o = Some JNull -> validate_CategoryCreate o = None).
Proof.
  intros fields_ok. split; [|split].
  - intros Hg. rewrite validate_CategoryCreate_iff. unfold fields_ok. rewrite Hg.
    split.
    + intros (H1 & H2 & H3 & [[_ H]|[H _]]); [tauto|congruence].
    + intros ((H1 & H2 & H3) & H).
      split; [exact H1|split; [exact H2|split; [exact H3|left; split; [reflexivity|exact H]]]].
  - intros z Hg. rewrite validate_CategoryCreate_iff. unfold fields_ok, req_int. rewrite Hg.
    split.
    + intros (H1 & H2 & H3 & [[H _]|[_ H]]); [discriminate|injection H as ->; tauto].
    + intros ((H1 & H2 & H3) & ->).
      split; [exact H1|split; [exact H2|split; [exact H3|right; split; [discriminate|reflexivity]]]].
  - intros Hg. destruct (validate_CategoryCreate o) as [c'|] eqn:E; [|reflexivity].
    apply validate_CategoryCreate_iff in E as (_ & _ & _ & [[H _]|[_ H]]);
      unfold req_int in H; rewrite Hg in H; discriminate.
Qed.

(** ** Unique columns *)

Lemma NoDup_snoc {A} (l : list A) a : NoDup l -> ~ In a l -> NoDup (l ++ [a])%list.
Proof.
  induction l as [|b l IH]; simpl; intros Hd Hn.
  - constructor; [intros []|constructor].
  - inversion Hd as [|? ? Hb Hl]; subst. constructor.
    + rewrite in_app_iff. intros [H|[H|[]]]; [contradiction|apply Hn; now left].
    + apply IH; auto.
Qed.

Lemma insert_unique_fresh {A} other_ok (keys : list (A -> string)) x rows rows' :
  insert_unique other_ok keys x rows = Some rows' ->
  rows' = (rows ++ [x])%list /\ forall r k, In r rows -> In k keys -> k r <> k x.
Proof.
  unfold insert_unique.
  destruct (existsb (fun r => existsb (fun k => String.eqb (k r) (k x)) keys) rows) eqn:E;
    [discriminate|]. simpl. destruct (other_ok rows x); [|discriminate].
  intros [= <-]. split; [reflexivity|].
  intros r k Hr Hk Heq.
  assert (existsb (fun r => existsb (fun k => String.eqb (k r) (k x)) keys) rows = true)
    as C by (apply existsb_exists; exists r; split; [exact Hr|];
             apply existsb_exists; exists k; split; [exact Hk|];
             now apply String.eqb_eq).
  congruence.
Qed.

Lemma insert_all_keys_nodup {A} other_ok (keys : list (A -> string)) xs rows :
  (forall k, In k keys -> NoDup (map k rows)) ->
  forall k, In k keys -> NoDup (map k (insert_all other_ok keys xs rows)).
Proof.
  unfold insert_all. revert rows. induction xs as [|x xs IH]; simpl; intros rows H.
  - exact H.
  - apply IH. destruct (insert_unique other_ok keys x rows) as [rows'|] eqn:E; [|exact H].
    apply insert_unique_fresh in E as [-> Hne]. intros k Hk.
    rewrite map_app. apply NoDup_snoc; [now apply H|].
    intros Hin. apply in_map_iff in Hin as [r [Heq Hr]].
    exact (Hne r k Hr Hk Heq).
Qed.

(** Starting from empty tables, any sequence of INSERTs leaves no two [users]
    rows with the same [username] or the same [email], no two [categories]
    rows with the same [name] and no two [system_settings] rows with the same
    [key], whatever other checks the database applies to an INSERT. *)
Theorem unique_columns_hold
    (user_ok : list User.t -> User.t -> bool)
    (category_ok : list Category.t -> Category.t -> bool)
    (setting_ok : list SystemSetting.t -> SystemSetting.t -> bool)
    (us : list User.t) (cs : list Category.t) (ss : list SystemSetting.t) :
  NoDup (map User.username (insert_all user_ok user_keys us [])) /\
  NoDup (map User.email (insert_all user_ok user_keys us [])) /\
  NoDup (map Category.name (insert_all category_ok category_keys cs [])) /\
  NoDup (map SystemSetting.key (insert_all setting_ok setting_keys ss [])).
Proof.
  assert (E : forall A other_ok (keys : list (A -> string)) xs k,
             In k keys -> NoDup (map k (insert_all other_ok keys xs [])))
    by (intros; apply insert_all_keys_nodup; [intros; constructor|assumption]).
  repeat split; apply E; simpl; auto.
Qed.
